(** * The visualization adapter of the chat front end

    A shallow embedding of [src/components/chat/Visualization.tsx]: the
    component takes the chart description sent by the backend and turns
    it into the point list and the chart element handed to the charting
    library.  The element tree is modelled as data; what the charting
    library draws from it is outside this development. *)

From stdpp Require Import gmap strings list fin_maps pretty.

Open Scope string_scope.
Open Scope nat_scope.

(** ** Completions

    The only failure the chart component can run into is the [TypeError]
    of a property read on [undefined].  The message component around it
    can also hand React an object as a child, which React refuses with
    an [Error] of its own ("Objects are not valid as a React child"):
    [InvalidChild]. *)

Inductive js_error : Type :=
  | TypeError
  | InvalidChild.

Inductive completion (A : Type) : Type :=
  | Normal (a : A)
  | Throw (e : js_error).

Arguments Normal {A} a.
Arguments Throw {A} e.

#[global] Instance completion_ret : MRet completion := fun A a => Normal a.

#[global] Instance completion_bind : MBind completion := fun A B f m =>
  match m with
  | Normal a => f a
  | Throw e => Throw e
  end.

(** [o[0]], [o.length], ... where [o] may be [undefined]. *)
Definition deref {A : Type} (o : option A) : completion A :=
  match o with
  | Some a => Normal a
  | None => Throw TypeError
  end.

(** ** Values

    The adapter never computes with the data values, it only moves them;
    arithmetic happens on array indices alone.  Numbers are carried as
    [Z]. *)

(** An element of [labels : string[] | number[]]. *)
Inductive label : Type :=
  | LStr (s : string)
  | LNum (n : Z).

(** An element of [values : number[] | number[][]]. *)
Inductive velem : Type :=
  | VNum (n : Z)
  | VArr (l : list Z).

(** What a field of a data point can hold. *)
Inductive jsval : Type :=
  | JUndefined
  | JNum (n : Z)
  | JStr (s : string)
  | JArr (l : list Z).

#[global] Instance label_eq_dec : EqDecision label.
Proof. solve_decision. Defined.

#[global] Instance velem_eq_dec : EqDecision velem.
Proof. solve_decision. Defined.

#[global] Instance jsval_eq_dec : EqDecision jsval.
Proof. solve_decision. Defined.

(** A data point is a JS object with string keys. *)
Abbreviation point := (gmap string jsval).

(** Truthiness of a string and of a field value. *)
Definition truthy (s : string) : bool :=
  match s with
  | EmptyString => false
  | String _ _ => true
  end.

Definition truthy_val (v : jsval) : bool :=
  match v with
  | JUndefined => false
  | JNum n => negb (n =? 0)%Z
  | JStr s => truthy s
  | JArr _ => true
  end.

(** [o || d] for [o : string | undefined]. *)
Definition or_default (o : option string) (d : string) : string :=
  match o with
  | Some s => if truthy s then s else d
  | None => d
  end.

(** [o ? { value: o, ... } : undefined] and [o && <h3>{o}</h3>]. *)
Definition when_truthy (o : option string) : option string :=
  match o with
  | Some s => if truthy s then Some s else None
  | None => None
  end.

Definition label_val (l : label) : jsval :=
  match l with
  | LStr s => JStr s
  | LNum n => JNum n
  end.

(** [values[index]] on the outer array. *)
Definition values_at (vs : list velem) (index : nat) : jsval :=
  match vs !! index with
  | Some (VNum n) => JNum n
  | Some (VArr l) => JArr l
  | None => JUndefined
  end.

(** [series[index]]: out of range, and on a number, it is [undefined]. *)
Definition series_at (series : velem) (index : nat) : jsval :=
  match series with
  | VArr l =>
      match l !! index with
      | Some n => JNum n
      | None => JUndefined
      end
  | VNum _ => JUndefined
  end.

(** [Array.isArray(v)]. *)
Definition isArray (v : option velem) : bool :=
  match v with
  | Some (VArr _) => true
  | _ => false
  end.

(** ** The input *)

Record Extra : Type := {
  title : option string;
  xLabel : option string;
  yLabel : option string;
  colors : option (list string);
  quartis : option (list point);
  ranges : option jsval;
  legendas : option (list string)
}.

Record VisualizationData : Type := {
  type : string;
  labels : option (list label);
  values : option (list velem);
  extra : option Extra
}.

(** [data.extra?.f] *)
Definition extra_get {A : Type} (f : Extra → option A)
    (data : VisualizationData) : option A :=
  match extra data with
  | Some e => f e
  | None => None
  end.

(** [data.extra?.legendas?.[i]] *)
Definition legenda_at (data : VisualizationData) (i : nat) : option string :=
  match extra_get legendas data with
  | Some names => names !! i
  | None => None
  end.

Definition COLORS : list string :=
  [ "#FFA500"; "#FFB300"; "#FFC107"; "#FFD54F";
    "#FF9800"; "#FFECB3"; "#FFF8E1"; "#FFB74D" ].

(** ** prepareChartData *)

(** [data.extra?.legendas?.[seriesIndex] || `Série ${seriesIndex + 1}`] *)
Definition seriesName (data : VisualizationData) (seriesIndex : nat) : string :=
  or_default (legenda_at data seriesIndex)
             ("Série " +:+ pretty (seriesIndex + 1)).

(** [dataPoint[seriesName] = series[index]].  The point is an object
    literal, so the key ["__proto__"] reaches the setter inherited from
    [Object.prototype]; [series[index]] is a number or [undefined], which
    that setter ignores: no field is created. *)
Definition set_field (seriesName : string) (v : jsval) (dataPoint : point)
    : point :=
  if decide (seriesName = "__proto__") then dataPoint
  else <[seriesName := v]> dataPoint.

(** The [forEach] over the series, writing one field per series into the
    point under construction; [seriesIndex] is the index of the head of
    [vs]. *)
Fixpoint forEach_series (data : VisualizationData) (index seriesIndex : nat)
    (vs : list velem) (dataPoint : point) : point :=
  match vs with
  | [] => dataPoint
  | series :: rest =>
      forEach_series data index (S seriesIndex) rest
        (set_field (seriesName data seriesIndex) (series_at series index)
                   dataPoint)
  end.

Definition multiPoint (data : VisualizationData) (vs : list velem)
    (index : nat) (l : label) : point :=
  forEach_series data index 0 vs {[ "name" := label_val l ]}.

Definition singlePoint (vs : list velem) (index : nat) (l : label) : point :=
  {[ "name" := label_val l;
     "value" := values_at vs index;
     "x" := match l with
            | LNum n => JNum n
            | LStr _ => JNum (Z.of_nat index)
            end;
     "y" := values_at vs index ]}.

Definition prepareChartData (data : VisualizationData) : list point :=
  match labels data, values data with
  | Some ls, Some vs =>
      if isArray (vs !! 0)
      then imap (multiPoint data vs) ls
      else imap (singlePoint vs) ls
  | _, _ => []
  end.

Definition customColors (data : VisualizationData) : list string :=
  match extra_get colors data with
  | Some cs => cs
  | None => COLORS
  end.

(** [cs[index % cs.length]]: on an empty array the remainder is [NaN]
    and the read is [undefined]. *)
Definition colorAt (cs : list string) (index : nat) : option string :=
  match length cs with
  | 0 => None
  | S _ as k => cs !! (index mod k)
  end.

Definition color_val (c : option string) : jsval :=
  match c with
  | Some s => JStr s
  | None => JUndefined
  end.

(** ** The element tree *)

Record Bar : Type := {
  bar_dataKey : string;
  bar_fill : option string;
  bar_labelList : bool
}.

Record Line : Type := {
  line_dataKey : string;
  line_stroke : option string
}.

Record Area : Type := {
  area_dataKey : string;
  area_stroke : option string;
  area_fill : option string
}.

Inductive element : Type :=
  | BarChart (data : list point) (barCategoryGap : option nat)
      (xAxisLabel yAxisLabel : option string) (bars : list Bar) (legend : bool)
  | LineChart (data : list point)
      (xAxisLabel yAxisLabel : option string) (lines : list Line) (legend : bool)
  | PieChart (pieData : list point) (dataKey : string)
  | ScatterChart (xAxisLabel yAxisLabel : option string)
      (data : list point) (fill : option string)
  | AreaChart (boxData : list point) (areas : list Area)
  | Div (text : string).

Record Card : Type := {
  card_title : option string;
  card_chart : element
}.

Definition legend_of (data : VisualizationData) : bool :=
  match extra_get legendas data with
  | Some _ => true
  | None => false
  end.

Definition renderChart (data : VisualizationData) (chartData : list point)
    (customColors : list string) : completion element :=
  let ty := type data in
  let xl := when_truthy (extra_get xLabel data) in
  let yl := when_truthy (extra_get yLabel data) in
  if decide (ty = "bar") then
    vs ← deref (values data);
    let bars :=
      if isArray (vs !! 0)
      then imap (fun index _ =>
                   {| bar_dataKey := seriesName data index;
                      bar_fill := colorAt customColors index;
                      bar_labelList := false |}) vs
      else [ {| bar_dataKey := "value";
                bar_fill := customColors !! 0;
                bar_labelList := true |} ] in
    mret (BarChart chartData None xl yl bars (legend_of data))
  else if decide (ty = "line" ∨ ty = "timeseries") then
    vs ← deref (values data);
    let lines :=
      if isArray (vs !! 0)
      then imap (fun index _ =>
                   {| line_dataKey := seriesName data index;
                      line_stroke := colorAt customColors index |}) vs
      else [ {| line_dataKey := "value";
                line_stroke := customColors !! 0 |} ] in
    mret (LineChart chartData xl yl lines (legend_of data))
  else if decide (ty = "pie") then
    let pieData :=
      imap (fun index item =>
              <["fill" := color_val (colorAt customColors index)]> item)
           chartData in
    mret (PieChart pieData "value")
  else if decide (ty = "scatter") then
    mret (ScatterChart xl yl chartData (customColors !! 0))
  else if decide (ty = "histogram") then
    let yh :=
      match extra_get yLabel data with
      | Some s =>
          if truthy s
          then Some (or_default (extra_get yLabel data) "Frequência")
          else None
      | None => None
      end in
    mret (BarChart chartData (Some 0) xl yh
            [ {| bar_dataKey := "value";
                 bar_fill := customColors !! 0;
                 bar_labelList := false |} ] false)
  else if decide (ty = "boxplot") then
    let boxData :=
      match extra_get quartis data with
      | Some q => q
      | None => chartData
      end in
    let body :=
      {| area_dataKey := "value";
         area_stroke := customColors !! 0;
         area_fill := customColors !! 0 |} in
    let overlay :=
      match extra_get ranges data with
      | Some r =>
          if truthy_val r
          then [ {| area_dataKey := "max";
                    area_stroke := customColors !! 1;
                    area_fill := customColors !! 1 |} ]
          else []
      | None => []
      end in
    mret (AreaChart boxData (body :: overlay))
  else
    mret (Div ("Tipo de gráfico não suportado: " +:+ ty)).

Definition Visualization (data : option VisualizationData)
    : completion (option Card) :=
  match data with
  | None => mret None
  | Some d =>
      let chartData := prepareChartData d in
      let cc := customColors d in
      chart ← renderChart d chartData cc;
      mret (Some {| card_title := when_truthy (extra_get title d);
                    card_chart := chart |})
  end.

(** ** The two shapes of [values]

    [number[]] and [number[][]], as the interface declares them.  The
    code tells them apart by looking at [values[0]] only. *)

Definition is_number (v : velem) : bool :=
  match v with
  | VNum _ => true
  | VArr _ => false
  end.

Definition is_series (v : velem) : bool :=
  match v with
  | VNum _ => false
  | VArr _ => true
  end.

Definition single_series (vs : list velem) : bool := forallb is_number vs.

Definition multi_series (vs : list velem) : bool :=
  match vs with
  | [] => false
  | _ :: _ => forallb is_series vs
  end.

(** The kinds whose branch reads [data.values[0]]. *)
Definition series_types : list string := [ "bar"; "line"; "timeseries" ].

(** ** Reading the result *)

Definition supported_types : list string :=
  [ "line"; "bar"; "pie"; "boxplot"; "scatter"; "histogram"; "timeseries" ].

(** The [default] branch of the switch is the one outcome that is not a
    chart. *)
Definition is_chart (e : element) : bool :=
  match e with
  | Div _ => false
  | _ => true
  end.

Definition builds_chart (r : completion (option Card)) : bool :=
  match r with
  | Normal (Some c) => is_chart (card_chart c)
  | _ => false
  end.

(** The computation ends in a throw. *)
Definition fails {A : Type} (m : completion A) : Prop := ∃ e, m = Throw e.

(** The chart inside the card the component returned, if any. *)
Definition chart_of (r : completion (option Card)) : option element :=
  match r with
  | Normal (Some c) => Some (card_chart c)
  | _ => None
  end.

(** Whether the element carries a [<Legend />] child. *)
Definition has_legend (e : element) : bool :=
  match e with
  | BarChart _ _ _ _ _ legend => legend
  | LineChart _ _ _ _ legend => legend
  | _ => false
  end.

(** The y axis label and the [barCategoryGap] of a bar chart element. *)
Definition y_axis_label (e : element) : option string :=
  match e with
  | BarChart _ _ _ yl _ _ => yl
  | LineChart _ _ yl _ _ => yl
  | ScatterChart _ yl _ _ => yl
  | _ => None
  end.

Definition bar_gap (e : element) : option nat :=
  match e with
  | BarChart _ gap _ _ _ _ => gap
  | _ => None
  end.

(** ** Sample payloads *)

Definition no_extra : Extra :=
  {| title := None; xLabel := None; yLabel := None; colors := None;
     quartis := None; ranges := None; legendas := None |}.

Definition bar_jan_feb : VisualizationData :=
  {| type := "bar";
     labels := Some [LStr "Jan"; LStr "Feb"];
     values := Some [VNum 10; VNum 20];
     extra := None |}.

Definition scatter_numeric : VisualizationData :=
  {| type := "scatter";
     labels := Some [LNum 7; LStr "b"; LNum 9];
     values := Some [VNum 1; VNum 2];
     extra := None |}.


Definition pie_two_series : VisualizationData :=
  {| type := "pie";
     labels := Some [LStr "a"; LStr "b"];
     values := Some [VArr [1; 2]; VArr [3; 4]]%Z;
     extra := None |}.

Definition foo_kind : VisualizationData :=
  {| type := "foo";
     labels := Some [LStr "a"];
     values := Some [VNum 1];
     extra := None |}.

Definition line_wind : VisualizationData :=
  {| type := "line";
     labels := Some [LStr "t1"; LStr "t2"];
     values := Some [VArr [1; 2]; VArr [3; 4]]%Z;
     extra := Some {| title := None; xLabel := None; yLabel := None;
                      colors := None; quartis := None; ranges := None;
                      legendas := Some ["Wind"] |} |}.

Definition bar_two_series : VisualizationData :=
  {| type := "bar";
     labels := Some [LStr "a"; LStr "b"];
     values := Some [VArr [1; 2]; VArr [3; 4]]%Z;
     extra := None |}.

Definition bar_empty_palette : VisualizationData :=
  {| type := "bar";
     labels := Some [LStr "a"];
     values := Some [VArr [1]; VArr [2]]%Z;
     extra := Some {| title := None; xLabel := None; yLabel := None;
                      colors := Some []; quartis := None; ranges := None;
                      legendas := None |} |}.

Definition histogram_0_10 : VisualizationData :=
  {| type := "histogram";
     labels := Some [LStr "0-10"];
     values := Some [VNum 5];
     extra := None |}.

Definition line_short_series : VisualizationData :=
  {| type := "line";
     labels := Some [LStr "t1"; LStr "t2"];
     values := Some [VArr [1]; VArr [3; 4]]%Z;
     extra := None |}.

Definition line_same_names : VisualizationData :=
  {| type := "line";
     labels := Some [LStr "a"; LStr "b"];
     values := Some [VArr [1]; VArr [2; 3]]%Z;
     extra := Some {| title := None; xLabel := None; yLabel := None;
                      colors := None; quartis := None; ranges := None;
                      legendas := Some ["A"; "A"] |} |}.

Definition bar_no_values : VisualizationData :=
  {| type := "bar";
     labels := Some [LStr "a"];
     values := None;
     extra := None |}.

(** ** What the chart element reads *)

(** The resolved names of the series of [vs], in order. *)
Definition seriesNames (data : VisualizationData) (vs : list velem)
    : list string :=
  seriesName data <$> seq 0 (length vs).

(** The point list handed to the charting library. *)
Definition chart_points (e : element) : list point :=
  match e with
  | BarChart data _ _ _ _ _ => data
  | LineChart data _ _ _ _ => data
  | PieChart pieData _ => pieData
  | ScatterChart _ _ data _ => data
  | AreaChart boxData _ => boxData
  | Div _ => []
  end.

(** The point fields the element is keyed on: the [dataKey] of its axes
    and of its children, and for the pie the two fields its label
    function reads. *)
Definition data_keys (e : element) : list string :=
  match e with
  | BarChart _ _ _ _ bars _ => "name" :: (bar_dataKey <$> bars)
  | LineChart _ _ _ lines _ => "name" :: (line_dataKey <$> lines)
  | PieChart _ dataKey => [ "name"; dataKey ]
  | ScatterChart _ _ _ _ => [ "x"; "y" ]
  | AreaChart _ areas => "name" :: (area_dataKey <$> areas)
  | Div _ => []
  end.

(** [values] reaches as far as [labels]: the flat sequence does, or on
    the multi-series path every series is a sequence that does. *)
Definition covers (ls : list label) (vs : list velem) : Prop :=
  if isArray (vs !! 0)
  then ∀ series, series ∈ vs → ∃ l, series = VArr l ∧ length ls ≤ length l
  else length ls ≤ length vs.

(** The colour of each [Bar] or [Line] child, in order. *)
Definition series_fills (e : element) : list (option string) :=
  match e with
  | BarChart _ _ _ _ bars _ => bar_fill <$> bars
  | LineChart _ _ _ lines _ => line_stroke <$> lines
  | _ => []
  end.


Definition line_legendas (names : list string) : VisualizationData :=
  {| type := "line";
     labels := Some [LStr "t1"; LStr "t2"];
     values := Some [VArr [1; 2]; VArr [3; 4]]%Z;
     extra := Some {| title := None; xLabel := None; yLabel := None;
                      colors := None; quartis := None; ranges := None;
                      legendas := Some names |} |}.

Definition bar_two_colors : VisualizationData :=
  {| type := "bar";
     labels := Some [LStr "a"];
     values := Some [VArr [1]; VArr [2]; VArr [3]]%Z;
     extra := Some {| title := None; xLabel := None; yLabel := None;
                      colors := Some ["red"; "blue"]; quartis := None;
                      ranges := None; legendas := None |} |}.

Definition histogram_two_series : VisualizationData :=
  {| type := "histogram";
     labels := Some [LStr "a"; LStr "b"];
     values := Some [VArr [1; 2]; VArr [3; 4]]%Z;
     extra := None |}.

Definition boxplot_ranges : VisualizationData :=
  {| type := "boxplot";
     labels := None;
     values := None;
     extra := Some {| title := None; xLabel := None; yLabel := None;
                      colors := Some ["red"];
                      quartis := Some [ {[ "name" := JStr "q"; "value" := JNum 1;
                                           "max" := JNum 2 ]} ];
                      ranges := Some (JNum 1); legendas := None |} |}.

(** * The chat around the adapter

    [ChatMessage.tsx] renders one message with its chart and its tabs;
    the two [ChatInterface] components keep the message list and talk to
    the backend. *)

#[global] Instance completion_fmap : FMap completion := fun A B f m =>
  match m with
  | Normal a => Normal (f a)
  | Throw e => Throw e
  end.

(** ** JSON values

    What [response.json()] returns.  An object is the list of its own
    properties in enumeration order, with distinct keys. *)

#[local] Unset Elimination Schemes.

Inductive json : Type :=
  | JsNull
  | JsBool (b : bool)
  | JsNumber (n : Z)
  | JsString (s : string)
  | JsArray (items : list json)
  | JsObject (fields : list (string * json)).

#[local] Set Elimination Schemes.

Definition json_truthy (j : json) : bool :=
  match j with
  | JsNull => false
  | JsBool b => b
  | JsNumber n => negb (n =? 0)%Z
  | JsString s => truthy s
  | JsArray _ => true
  | JsObject _ => true
  end.

(** Truthiness of a value that may be [undefined]. *)
Definition opt_truthy (o : option json) : bool :=
  match o with
  | Some j => json_truthy j
  | None => false
  end.

(** [a || b] *)
Definition js_or (a b : option json) : option json :=
  if opt_truthy a then a else b.

(** [typeof j === 'object'] holds of [null] too. *)
Definition typeof_object (j : json) : bool :=
  match j with
  | JsNull => true
  | JsArray _ => true
  | JsObject _ => true
  | _ => false
  end.

(** [Array.isArray(o)] *)
Definition as_array (o : option json) : option (list json) :=
  match o with
  | Some (JsArray items) => Some items
  | _ => None
  end.

Fixpoint assoc (k : string) (fields : list (string * json)) : option json :=
  match fields with
  | [] => None
  | (k', v) :: rest => if decide (k' = k) then Some v else assoc k rest
  end.

(** [j.k], for the property names the components read ([tables],
    [columns], [text], [answer], [visualization], [needTableSelection],
    [labels], [values], [type], [extra], [colors], [title], [name]).  Only
    [null] makes the read throw; on an array [values] is a built-in
    method, which is no array and is passed to [Array.isArray] only. *)
Definition js_prop (j : json) (k : string) : completion (option json) :=
  match j with
  | JsNull => Throw TypeError
  | JsObject fields => Normal (assoc k fields)
  | _ => Normal None
  end.

(** [o?.k] *)
Definition js_prop_opt (o : option json) (k : string) : option json :=
  match o with
  | Some (JsObject fields) => assoc k fields
  | _ => None
  end.

(** [o?.[i]] *)
Definition js_index_opt (o : option json) (i : nat) : option json :=
  match o with
  | Some (JsArray items) => items !! i
  | Some (JsObject fields) => assoc (pretty i) fields
  | Some (JsString s) =>
      match String.get i s with
      | Some c => Some (JsString (String c EmptyString))
      | None => None
      end
  | _ => None
  end.

(** Text the components put on the page; [JSON.stringify] (with its
    indentation) and [String] are left uninterpreted, and [Raw] is a value
    used as it is. *)
Inductive text : Type :=
  | Literal (s : string)
  | Stringify (j : json) (indent : nat)
  | StringOf (j : json)
  | Raw (j : json).

(** Whether [String(val)] throws.  On an object [String] calls its
    [toString]; an own property of a parsed object is never callable, so
    an object with its own [toString] is left with the inherited
    [valueOf], which returns the object itself: a [TypeError].  An array
    joins the [String] of its elements, and throws when one of them
    does. *)
Fixpoint String_throws (val : json) : bool :=
  match val with
  | JsObject fields => bool_decide (is_Some (assoc "toString" fields))
  | JsArray items => existsb String_throws items
  | _ => false
  end.

(** Whether React takes the value as a child: strings and numbers are
    drawn, booleans and [null] draw nothing, an array is taken element by
    element, and an object makes React throw. *)
Fixpoint valid_child (j : json) : bool :=
  match j with
  | JsObject _ => false
  | JsArray items => forallb valid_child items
  | _ => true
  end.

(** React reconciling [{t}] under a host element. *)
Definition child (t : text) : completion text :=
  match t with
  | Raw j => if valid_child j then Normal t else Throw InvalidChild
  | _ => Normal t
  end.

(** ** ChatMessage *)

Record Message : Type := {
  msg_id : string;
  msg_type : string;
  content : text;
  timestamp : nat;
  visualization : option VisualizationData;
  tables : option (list json);
  columns : option (list json);
  sql_query : option string;
  msg_data : option json
}.

Definition isUser (message : Message) : bool :=
  bool_decide (msg_type message = "user").

(** [message.sql_query] as a condition. *)
Definition has_sql (message : Message) : bool :=
  match sql_query message with
  | Some q => truthy q
  | None => false
  end.

(** [message.tables] as a condition: any array counts. *)
Definition has_list (o : option (list json)) : bool :=
  match o with
  | Some _ => true
  | None => false
  end.

(** [message.tables && message.tables.length > 0] *)
Definition nonempty_list (o : option (list json)) : bool :=
  match o with
  | Some items => bool_decide (0 < length items)
  | None => false
  end.

(** Whether the card with the tabs is rendered at all. *)
Definition tabsShown (message : Message) : bool :=
  has_sql message || has_list (tables message) ||
  has_list (columns message) || opt_truthy (msg_data message).

(** The [defaultValue] of [Tabs]. *)
Definition defaultTab (message : Message) : string :=
  if has_sql message then "sql"
  else if has_list (tables message) then "tables"
  else if has_list (columns message) then "columns"
  else "data".

(** The values for which a [TabsTrigger] (and, under the same condition,
    a [TabsContent]) is rendered. *)
Definition tabValues (message : Message) : list string :=
  (if has_sql message then ["sql"] else []) ++
  (if nonempty_list (tables message) then ["tables"] else []) ++
  (if nonempty_list (columns message) then ["columns"] else []) ++
  (if opt_truthy (msg_data message) then ["data"] else []).

Definition tableText (table : json) : text :=
  match table with
  | JsString s => Literal s
  | _ => Stringify table 2
  end.

(** [typeof col === 'string' ? col : col.name || JSON.stringify(col)]:
    the expression alone.  A truthy [col.name] is used as it is, whatever
    it is; it is React that checks it, when the panel is mounted (see
    [ChatMessage]). *)
Definition columnText (col : json) : completion text :=
  match col with
  | JsString s => Normal (Literal s)
  | _ =>
      name ← js_prop col "name";
      mret (match name with
            | Some n => if json_truthy n then Raw n else Stringify col 0
            | None => Stringify col 0
            end)
  end.

(** [Object.keys(j)] and [Object.values(j)] *)
Definition objectKeys (j : json) : completion (list string) :=
  match j with
  | JsNull => Throw TypeError
  | JsObject fields => Normal (fields.*1)
  | JsArray items => Normal (pretty <$> seq 0 (length items))
  | JsString s => Normal (pretty <$> seq 0 (String.length s))
  | _ => Normal []
  end.

Definition objectValues (j : json) : completion (list json) :=
  match j with
  | JsNull => Throw TypeError
  | JsObject fields => Normal (fields.*2)
  | JsArray items => Normal items
  | JsString s =>
      Normal ((λ c, JsString (String c EmptyString)) <$> String.list_ascii_of_string s)
  | _ => Normal []
  end.

(** What a cell shows when [String] returns. *)
Definition cellShown (val : json) : text :=
  match val with
  | JsNull => Literal "-"
  | _ => StringOf val
  end.

(** [val !== null && val !== undefined ? String(val) : '-'] *)
Definition cellText (val : json) : completion text :=
  match val with
  | JsNull => Normal (Literal "-")
  | _ => if String_throws val then Throw TypeError
         else Normal (StringOf val)
  end.

Inductive data_view : Type :=
  | DataTable (header : list string) (rows : list (list text))
  | DataPre (dump : text).

(** The cells of one row of the table. *)
Definition rowCells (row : json) : completion (list text) :=
  vals ← objectValues row; mapM cellText vals.

(** What makes a row of the table throw: the row is [null], or one of its
    values is rejected by [String]. *)
Definition bad_row (row : json) : Prop :=
  row = JsNull ∨
  ∃ vals val, objectValues row = Normal vals ∧ val ∈ vals ∧
              String_throws val = true.

(** The body of the "data" tab. *)
Definition dataView (d : json) : completion data_view :=
  match d with
  | JsArray (first :: rest) =>
      if typeof_object first
      then
        header ← objectKeys first;
        rows ← mapM rowCells (take 10 (first :: rest));
        mret (DataTable header rows)
      else mret (DataPre (Stringify d 2))
  | _ => mret (DataPre (Stringify d 2))
  end.

(** "Exibindo 10 de N registros": the [N] of the note, when it is shown. *)
Definition truncationNote (d : json) : option nat :=
  match d with
  | JsArray items => if bool_decide (10 < length items)
                     then Some (length items) else None
  | _ => None
  end.

Record TabsCard : Type := {
  tabs_default : string;
  tabs_values : list string;
  tabs_sql : option string;
  tabs_tables : option (list text);
  tabs_columns : option (list text);
  tabs_data : option (data_view * option nat)
}.

Definition tabsCard (message : Message) : completion TabsCard :=
  cols ← (if nonempty_list (columns message)
          then Some <$> mapM columnText (default [] (columns message))
          else mret None);
  dat ← (match msg_data message with
         | Some d =>
             if json_truthy d
             then view ← dataView d; mret (Some (view, truncationNote d))
             else mret None
         | None => mret None
         end);
  mret {| tabs_default := defaultTab message;
          tabs_values := tabValues message;
          tabs_sql := if has_sql message then sql_query message else None;
          tabs_tables := if nonempty_list (tables message)
                         then Some (tableText <$> default [] (tables message))
                         else None;
          tabs_columns := cols;
          tabs_data := dat |}.

Record MessageView : Type := {
  view_isUser : bool;
  view_content : text;
  view_chart : option (option Card);
  view_tabs : option TabsCard
}.

(** The message with everything below it rendered.  The function body
    runs first, with every expression of the tabs card; React then goes
    down the element tree: the text under [<p>], the chart component, and
    last the column names, which are children of a [TabsContent].  That
    component comes from the tabs library, which is not part of the
    sources: [mounted v] says whether it renders the children of the panel
    with value [v] at this render.  [timestamp] is always a date made by
    [new Date()], which [format] accepts. *)
Definition ChatMessage (mounted : string → bool) (message : Message)
    : completion MessageView :=
  tabs ← (if tabsShown message
          then Some <$> tabsCard message
          else mret None);
  shown ← child (content message);
  chart ← (match visualization message with
           | Some v => Some <$> Visualization (Some v)
           | None => mret None
           end);
  _ ← (match tabs with
       | Some card =>
           if mounted "columns"
           then mapM child (default [] (tabs_columns card))
           else mret []
       | None => mret []
       end);
  mret {| view_isUser := isUser message;
          view_content := shown;
          view_chart := chart;
          view_tabs := tabs |}.

(** A message that carries text and at most a [data] field: no chart, no
    SQL, no tables, no columns. *)
Definition text_only (m : Message) : Prop :=
  visualization m = None ∧ tables m = None ∧
  columns m = None ∧ sql_query m = None.

(** ** ChatInterface.tsx: the chat that draws its charts itself *)

Module Inline.

Record Message : Type := {
  m_id : string;
  m_type : string;
  m_content : text;
  m_visualization : option json;
  m_timestamp : nat
}.

Record State : Type := {
  messages : list Message;
  input : string;
  isLoading : bool
}.

(** The outcome of [fetch] followed by [response.json()]: either of them
    rejects, or the body parses. *)
Inductive fetch_result : Type :=
  | FetchFailed
  | FetchJson (data : json).

(** A point of the inline charts: [{hora: label, valor: values[i]}], or
    [categoria] for [hora]. *)
Abbreviation ipoint := (gmap string (option json)).

Inductive chart : Type :=
  | LineChart (data : list ipoint)
  | BarChart (data : list ipoint)
  | PieChart (data : list ipoint) (cells : list (option json)).

Record Block : Type := {
  block_charts : list chart;
  block_caption : text
}.

Definition points (key : string) (ls vs : list json) : list ipoint :=
  imap (λ i label, {[ key := Some label; "valor" := vs !! i ]}) ls.

Definition defaultPie : list string := [ "#FFA500"; "#FFB300"; "#FFC107" ].

(** [visualization.extra?.colors?.[i] || defaultPie[i % 3]] *)
Definition cellFill (v : json) (i : nat) : option json :=
  js_or (js_index_opt (js_prop_opt (js_prop_opt (Some v) "extra") "colors") i)
        (JsString <$> defaultPie !! (i mod 3)).

(** [visualization.type === ty] *)
Definition has_type (v : json) (ty : string) : bool :=
  match js_prop_opt (Some v) "type" with
  | Some (JsString s) => bool_decide (s = ty)
  | _ => false
  end.

(** [visualization.extra?.title || "Gráfico de dados"] *)
Definition caption (v : json) : text :=
  match js_prop_opt (js_prop_opt (Some v) "extra") "title" with
  | Some t => if json_truthy t then Raw t else Literal "Gráfico de dados"
  | None => Literal "Gráfico de dados"
  end.

(** The block under the text of a message, if it is rendered. *)
Definition chartBlock (visualization : option json) : option Block :=
  match visualization with
  | Some v =>
      if json_truthy v
      then
        match as_array (js_prop_opt (Some v) "labels"),
              as_array (js_prop_opt (Some v) "values") with
        | Some ls, Some vs =>
            if bool_decide (0 < length ls) && bool_decide (0 < length vs)
            then
              Some {| block_charts :=
                        (if has_type v "line"
                         then [ LineChart (points "hora" ls vs) ] else []) ++
                        (if has_type v "bar"
                         then [ BarChart (points "categoria" ls vs) ] else []) ++
                        (if has_type v "pie"
                         then [ PieChart (points "categoria" ls vs)
                                  (imap (λ i _, cellFill v i) ls) ]
                         else []);
                      block_caption := caption v |}
            else None
        | _, _ => None
        end
      else None
  | None => None
  end.

Definition errorMessage (now stamp : nat) : Message :=
  {| m_id := pretty (now + 1);
     m_type := "assistant";
     m_content := Literal "Erro ao consultar o backend.";
     m_visualization := None;
     m_timestamp := stamp |}.

(** The text of the reply: the body itself when it is a string, else its
    [answer], else its [text], else the body printed as JSON. *)
Definition formatted (data : json) : completion text :=
  match data with
  | JsString s => Normal (Literal s)
  | _ =>
      answer ← js_prop data "answer";
      match answer with
      | Some a =>
          if json_truthy a then Normal (Raw a)
          else
            match js_prop_opt (Some data) "text" with
            | Some t => if json_truthy t then Normal (Raw t)
                        else Normal (Stringify data 2)
            | None => Normal (Stringify data 2)
            end
      | None =>
          match js_prop_opt (Some data) "text" with
          | Some t => if json_truthy t then Normal (Raw t)
                      else Normal (Stringify data 2)
          | None => Normal (Stringify data 2)
          end
      end
  end.

(** The assistant message appended when the request settles; [now] and
    [stamp] are the readings of [Date.now()] and [new Date()] taken for
    it. *)
Definition reply (now stamp : nat) (r : fetch_result) : Message :=
  match r with
  | FetchFailed => errorMessage now stamp
  | FetchJson data =>
      match formatted data with
      | Normal c =>
          {| m_id := pretty (now + 1);
             m_type := "assistant";
             m_content := c;
             m_visualization :=
               js_or (js_prop_opt (Some data) "visualization") (Some JsNull);
             m_timestamp := stamp |}
      | Throw _ => errorMessage now stamp
      end
  end.

Section send.
Variable trim : string → string.

(** [handleSend] up to its [await]: [None] when it returns at the guard,
    else the new state and the [chatInput] posted to the backend. *)
Definition handleSend_begin (now stamp : nat) (st : State)
    : option (State * string) :=
  if negb (truthy (trim (input st))) || isLoading st then None
  else
    Some ({| messages :=
               messages st ++
               [ {| m_id := pretty now;
                    m_type := "user";
                    m_content := Literal (trim (input st));
                    m_visualization := None;
                    m_timestamp := stamp |} ];
             input := "";
             isLoading := true |},
          trim (input st)).

(** [handleSend] from the [await] on. *)
Definition handleSend_end (now stamp : nat) (r : fetch_result) (st : State)
    : State :=
  {| messages := messages st ++ [ reply now stamp r ];
     input := input st;
     isLoading := false |}.

(** [onChange] of the text area. *)
Definition setInput (value : string) (st : State) : State :=
  {| messages := messages st; input := value; isLoading := isLoading st |}.
End send.

End Inline.

(** ** The chat that renders through ChatMessage *)

Module Workflow.

#[local] Open Scope list_scope.

Record State : Type := {
  messages : list Message;
  input : string;
  isLoading : bool
}.

Inductive fetch_result : Type :=
  | FetchFailed
  | FetchJson (data : json).

(** Whether the [try] block ran to its end. *)
Inductive outcome : Type :=
  | Done
  | Failed.

(** A reading of [Date.now()] and of [new Date()]. *)
Record reading : Type := { now : nat; stamp : nat }.

Definition getSessionId : string := "sessao-3".

Record Request : Type := { chatInput : string; sessionId : string }.

Definition assistant (t : reading) (id_offset : nat) (c : text)
    (d : option json) : Message :=
  {| msg_id := pretty (now t + id_offset);
     msg_type := "assistant";
     content := c;
     timestamp := stamp t;
     visualization := None;
     tables := None;
     columns := None;
     sql_query := None;
     msg_data := d |}.

(** [callSubWorkflow]: the messages after it, and whether it threw.  The
    function itself throws only when the request or [response.json()]
    rejects.  The message it adds is built inside the updater handed to
    [setMessages], which React runs when it next renders the chat, after
    the function has returned and outside every [try]: the read of
    [data.tables] happens there, and on a [null] answer its [TypeError]
    is thrown out of the render.  That is the [Throw] here: no state
    follows, the chat fails to render. *)
Definition callSubWorkflow (t : reading) (sub : fetch_result)
    (msgs : list Message) : completion (list Message * outcome) :=
  match sub with
  | FetchFailed => Normal (msgs, Failed)
  | FetchJson data =>
      tbls ← js_prop data "tables";
      mret (msgs ++
            [ assistant t 0 (Literal "Resultado do subworkflow:")
                (js_or (js_or tbls (js_prop_opt (Some data) "columns"))
                       (Some data)) ],
            Done)
  end.

(** [handleMainResponse].  Its condition reads [response.tables] in the
    function body, so on a [null] response the [TypeError] is thrown
    inside the [try] of [handleSend]; the updaters below it only run on a
    response that passed this read. *)
Definition handleMainResponse (t t_sub : reading) (response : json)
    (sub : fetch_result) (msgs : list Message)
    : completion (list Message * outcome) :=
  match js_prop response "tables" with
  | Throw _ => Normal (msgs, Failed)
  | Normal tbls =>
      let cols := js_prop_opt (Some response) "columns" in
      let unknown :=
        Normal
          (msgs ++ [ assistant t 0 (Literal "Resposta não reconhecida.") None ],
           Done) in
      if opt_truthy tbls || opt_truthy cols
      then
        Normal
          (msgs ++
           [ assistant t 0 (Literal "Aqui estão as tabelas/colunas encontradas:")
               (js_or tbls cols) ],
           Done)
      else
        match js_prop_opt (Some response) "text" with
        | Some txt =>
            if json_truthy txt
            then
              let msgs' := msgs ++ [ assistant t 0 (Raw txt) None ] in
              if opt_truthy (js_prop_opt (Some response) "needTableSelection")
              then callSubWorkflow t_sub sub msgs'
              else Normal (msgs', Done)
            else unknown
        | None => unknown
        end
  end.

(** Whether [handleMainResponse] goes on to call the sub-workflow: the
    response has neither [tables] nor [columns], and has a [text] and a
    [needTableSelection] that are truthy. *)
Definition callsSub (main : fetch_result) : bool :=
  match main with
  | FetchFailed => false
  | FetchJson response =>
      negb (opt_truthy (js_prop_opt (Some response) "tables")) &&
      negb (opt_truthy (js_prop_opt (Some response) "columns")) &&
      opt_truthy (js_prop_opt (Some response) "text") &&
      opt_truthy (js_prop_opt (Some response) "needTableSelection")
  end.

Section send.
Variable trim : string → string.

(** [handleSend] up to its [await]. *)
Definition handleSend_begin (t : reading) (st : State)
    : option (State * Request) :=
  if negb (truthy (trim (input st))) || isLoading st then None
  else
    Some ({| messages :=
               messages st ++
               [ {| msg_id := pretty (now t);
                    msg_type := "user";
                    content := Literal (input st);
                    timestamp := stamp t;
                    visualization := None;
                    tables := None;
                    columns := None;
                    sql_query := None;
                    msg_data := None |} ];
             input := "";
             isLoading := true |},
          {| chatInput := input st; sessionId := getSessionId |}).

(** [handleSend] from the [await] on: the [try], the [catch] and the
    [finally], and the state React reaches from the updates they queue;
    [Throw] when an updater throws and no state is reached. *)
Definition handleSend_end (t t_sub t_err : reading)
    (main sub : fetch_result) (st : State) : completion State :=
  '(msgs, result) ←
    match main with
    | FetchFailed => Normal (messages st, Failed)
    | FetchJson response =>
        handleMainResponse t t_sub response sub (messages st)
    end;
  mret {| messages :=
            match result with
            | Done => msgs
            | Failed =>
                msgs ++
                [ assistant t_err 2
                    (Literal "Erro ao consultar o n8n Cloud. Tente novamente.")
                    None ]
            end;
          input := input st;
          isLoading := false |}.
End send.

End Workflow.

(** ** Sample messages *)

Definition message_empty_tables : Message :=
  {| msg_id := "1"; msg_type := "assistant"; content := Literal "ok";
     timestamp := 0; visualization := None; tables := Some [];
     columns := None; sql_query := None;
     msg_data := Some (JsString "x") |}.

Definition rows_12 : list json :=
  (λ n, JsObject [("n", JsNumber (Z.of_nat n)); ("v", JsNull)]) <$> seq 0 12.

Definition message_null_column : Message :=
  {| msg_id := "1"; msg_type := "assistant"; content := Literal "ok";
     timestamp := 0; visualization := None; tables := None;
     columns := Some [JsString "a"; JsNull]; sql_query := None;
     msg_data := None |}.

(** ** Sample chat states *)

(** [trim] on ASCII white space, to run the chat on examples. *)
Definition is_space (c : Ascii.ascii) : bool :=
  bool_decide (Ascii.nat_of_ascii c ∈ [32; 9; 10; 11; 12; 13]).

Fixpoint ltrim (s : string) : string :=
  match s with
  | String c rest => if is_space c then ltrim rest else s
  | EmptyString => EmptyString
  end.

Definition trim_ascii (s : string) : string :=
  String.rev (ltrim (String.rev (ltrim s))).

Definition inline_typing : Inline.State :=
  {| Inline.messages := [];
     Inline.input := " oi ";
     Inline.isLoading := false |}.

Definition workflow_typing : Workflow.State :=
  {| Workflow.messages := [];
     Workflow.input := " oi ";
     Workflow.isLoading := false |}.

Definition reply_with_chart : json :=
  JsObject
    [ ("answer", JsString "ok");
      ("visualization",
       JsObject [ ("type", JsString "pie");
                  ("labels", JsArray [JsString "a"; JsString "b"]);
                  ("values", JsArray [JsNumber 1; JsNumber 2]);
                  ("extra", JsObject [("colors", JsArray [JsString "red"])]) ]) ].

Definition reply_needs_table : json :=
  JsObject [ ("text", JsString "qual tabela?");
             ("needTableSelection", JsBool true) ].

Definition block_with_pie : Inline.Block :=
  {| Inline.block_charts :=
       [ Inline.PieChart
           [ {[ "categoria" := Some (JsString "a");
                "valor" := Some (JsNumber 1) ]};
             {[ "categoria" := Some (JsString "b");
                "valor" := Some (JsNumber 2) ]} ]
           [ Some (JsString "red"); Some (JsString "#FFB300") ] ];
     Inline.block_caption := Literal "Gráfico de dados" |}.

(** ** Proof steps *)

(** One step down the [switch]: split on the next comparison of the
    chart type, in the goal or in a hypothesis. *)
Ltac next_case H :=
  match goal with
  | |- context [decide ?P] => destruct (decide P) as [H|H]
  | _ : context [decide ?P] |- _ => destruct (decide P) as [H|H]
  end.


(** Settle when a function that throws on [null] alone throws. *)
Ltac settle_throw :=
  let H := fresh in
  split; intros H;
  first [ done | by destruct H | by injection H as <-
        | by destruct H as [-> _] ].

(** Run the completion monad on known values. *)
Ltac run_completion :=
  unfold mbind, mret, completion_bind, completion_ret, deref in *;
  simplify_eq/=.

(** * Properties *)

(** ** Small facts about the helpers *)

Lemma single_series_not_array (vs : list velem) :
  single_series vs = true → isArray (vs !! 0) = false.
Proof.
  destruct vs as [|[n|l] vs]; simpl; [done | done | discriminate].
Qed.

Lemma multi_series_is_array (vs : list velem) :
  multi_series vs = true → isArray (vs !! 0) = true.
Proof.
  destruct vs as [|[n|l] vs]; simpl; [discriminate | discriminate | done].
Qed.

Lemma multi_series_lookup (vs : list velem) (s : nat) (v : velem) :
  multi_series vs = true → vs !! s = Some v → ∃ l, v = VArr l.
Proof.
  intros Hm Hs.
  assert (Hall : forallb is_series vs = true) by (destruct vs; [done | exact Hm]).
  rewrite forallb_forall in Hall.
  assert (Hv : is_series v = true).
  { apply Hall, list_elem_of_In, list_elem_of_lookup. eauto. }
  destruct v as [n|l]; [discriminate | eauto].
Qed.

Lemma values_at_single (vs : list velem) (i : nat) (n : Z) :
  vs !! i = Some (VNum n) → values_at vs i = JNum n.
Proof. intros H. unfold values_at. by rewrite H. Qed.

Lemma values_at_out_of_range (vs : list velem) (i : nat) :
  length vs ≤ i → values_at vs i = JUndefined.
Proof.
  intros H. unfold values_at. by rewrite (lookup_ge_None_2 vs i H).
Qed.

Lemma series_at_short (l : list Z) (i : nat) :
  length l ≤ i → series_at (VArr l) i = JUndefined.
Proof. intros H. simpl. by rewrite (lookup_ge_None_2 l i H). Qed.

Lemma series_at_in_range (l : list Z) (i : nat) (n : Z) :
  l !! i = Some n → series_at (VArr l) i = JNum n.
Proof. intros H. simpl. by rewrite H. Qed.

(** ** prepareChartData *)

Section prepare.
Variable data : VisualizationData.

Lemma prepareChartData_missing :
  labels data = None ∨ values data = None → prepareChartData data = [].
Proof.
  unfold prepareChartData.
  intros [-> | ->]; [done | by destruct (labels data)].
Qed.

Lemma prepareChartData_length (ls : list label) (vs : list velem) :
  labels data = Some ls → values data = Some vs →
  length (prepareChartData data) = length ls.
Proof.
  unfold prepareChartData. intros -> ->.
  destruct (isArray (vs !! 0)); apply length_imap.
Qed.

Lemma prepareChartData_length_default :
  length (prepareChartData data) ≤ length (default [] (labels data)).
Proof.
  unfold prepareChartData.
  destruct (labels data) as [ls|]; simpl; [|lia].
  destruct (values data) as [vs|]; simpl; [|lia].
  destruct (isArray (vs !! 0)); by rewrite length_imap.
Qed.

Lemma prepareChartData_single (ls : list label) (vs : list velem)
    (i : nat) (l : label) :
  labels data = Some ls → values data = Some vs →
  isArray (vs !! 0) = false → ls !! i = Some l →
  prepareChartData data !! i = Some (singlePoint vs i l).
Proof.
  unfold prepareChartData. intros -> -> -> Hl.
  by rewrite list_lookup_imap, Hl.
Qed.

Lemma prepareChartData_multi (ls : list label) (vs : list velem)
    (i : nat) (l : label) :
  labels data = Some ls → values data = Some vs →
  isArray (vs !! 0) = true → ls !! i = Some l →
  prepareChartData data !! i = Some (multiPoint data vs i l).
Proof.
  unfold prepareChartData. intros -> -> -> Hl.
  by rewrite list_lookup_imap, Hl.
Qed.
End prepare.

(** ** Series names *)

Lemma seriesName_explicit (data : VisualizationData) (s : nat) (n : string) :
  legenda_at data s = Some n → truthy n = true → seriesName data s = n.
Proof. intros H Ht. unfold seriesName. rewrite H. simpl. by rewrite Ht. Qed.

Lemma seriesName_fallback (data : VisualizationData) (s : nat) :
  legenda_at data s = None ∨ legenda_at data s = Some "" →
  seriesName data s = "Série " +:+ pretty (s + 1).
Proof. unfold seriesName. by intros [-> | ->]. Qed.

Lemma seriesName_no_legendas (data : VisualizationData) (s : nat) :
  extra_get legendas data = None →
  seriesName data s = "Série " +:+ pretty (s + 1).
Proof.
  intros H. apply seriesName_fallback. left. unfold legenda_at. by rewrite H.
Qed.

(** X10. Without [legendas] the synthesized names never clash: two
    series resolve to the same name only if they are the same series. *)
Lemma seriesName_no_legendas_inj (data : VisualizationData) (s s' : nat) :
  extra_get legendas data = None →
  seriesName data s = seriesName data s' → s = s'.
Proof.
  intros H. rewrite !seriesName_no_legendas by done.
  intros Heq. apply (inj (String.append "Série ")) in Heq.
  apply (inj pretty) in Heq. lia.
Qed.

(** ** The fan-out over the series *)

Lemma set_field_other (k k' : string) (v : jsval) (dp : point) :
  k ≠ k' → set_field k v dp !! k' = dp !! k'.
Proof.
  intros Hk. unfold set_field. destruct (decide (k = "__proto__")); [done|].
  by apply lookup_insert_ne.
Qed.

Lemma set_field_eq (k : string) (v : jsval) (dp : point) :
  k ≠ "__proto__" → set_field k v dp !! k = Some v.
Proof.
  intros Hk. unfold set_field. destruct (decide (k = "__proto__")); [done|].
  apply lookup_insert_eq.
Qed.

Lemma set_field_is_Some (k k' : string) (v : jsval) (dp : point) :
  is_Some (dp !! k') → is_Some (set_field k v dp !! k').
Proof.
  intros Hk. unfold set_field. destruct (decide (k = "__proto__")); [done|].
  rewrite lookup_insert. by case_decide.
Qed.

Section fan_out.
Variable data : VisualizationData.
Variable index : nat.

(** Fields that no series is named after are left alone. *)
Lemma forEach_series_other (vs : list velem) :
  ∀ (s0 : nat) (dp : point) (k : string),
    (∀ j, j < length vs → seriesName data (s0 + j) ≠ k) →
    forEach_series data index s0 vs dp !! k = dp !! k.
Proof.
  induction vs as [|series rest IH]; intros s0 dp k Hk; simpl; [done|].
  rewrite IH.
  - apply set_field_other.
    specialize (Hk 0). rewrite Nat.add_0_r in Hk. apply Hk. simpl. lia.
  - intros j Hj. replace (S s0 + j) with (s0 + S j) by lia.
    apply Hk. simpl. lia.
Qed.

(** No series writes a field called ["__proto__"]. *)
Lemma forEach_series_proto (vs : list velem) :
  ∀ (s0 : nat) (dp : point),
    forEach_series data index s0 vs dp !! "__proto__" = dp !! "__proto__".
Proof.
  induction vs as [|series rest IH]; intros s0 dp; simpl; [done|].
  rewrite IH. unfold set_field.
  destruct (decide (seriesName data s0 = "__proto__")) as [|Hne]; [done|].
  by apply lookup_insert_ne.
Qed.

(** The last series written under a name is the one that is read. *)
Lemma forEach_series_lookup (vs : list velem) :
  ∀ (s0 : nat) (dp : point) (j : nat) (series : velem),
    vs !! j = Some series →
    seriesName data (s0 + j) ≠ "__proto__" →
    (∀ j', j < j' → j' < length vs →
           seriesName data (s0 + j') ≠ seriesName data (s0 + j)) →
    forEach_series data index s0 vs dp !! seriesName data (s0 + j)
    = Some (series_at series index).
Proof.
  induction vs as [|v rest IH]; intros s0 dp j series Hj Hproto Hlast; [done|].
  destruct j as [|j]; simpl in *.
  - simplify_eq. rewrite Nat.add_0_r in *.
    rewrite forEach_series_other.
    + by apply set_field_eq.
    + intros j' Hj'. replace (S s0 + j') with (s0 + S j') by lia.
      apply Hlast; lia.
  - replace (s0 + S j) with (S s0 + j) in * by lia.
    apply IH; [done | done |].
    intros j' Hlt Hlen.
    replace (S s0 + j') with (s0 + S j') by lia.
    apply Hlast; lia.
Qed.

(** A field, once there, stays there. *)
Lemma forEach_series_is_Some (vs : list velem) :
  ∀ (s0 : nat) (dp : point) (k : string),
    is_Some (dp !! k) → is_Some (forEach_series data index s0 vs dp !! k).
Proof.
  induction vs as [|v rest IH]; intros s0 dp k Hk; simpl; [done|].
  apply IH. by apply set_field_is_Some.
Qed.

(** Every series not called ["__proto__"] leaves a field behind. *)
Lemma forEach_series_field (vs : list velem) :
  ∀ (s0 : nat) (dp : point) (j : nat),
    j < length vs →
    seriesName data (s0 + j) ≠ "__proto__" →
    is_Some (forEach_series data index s0 vs dp !! seriesName data (s0 + j)).
Proof.
  induction vs as [|v rest IH]; intros s0 dp j Hj Hproto; simpl in *; [lia|].
  destruct j as [|j].
  - rewrite Nat.add_0_r in *. apply forEach_series_is_Some.
    rewrite set_field_eq by done. eauto.
  - replace (s0 + S j) with (S s0 + j) in * by lia. apply IH; [lia | done].
Qed.
End fan_out.

(** ** Colours *)

Lemma colorAt_cyclic (cs : list string) (s : nat) :
  cs ≠ [] → colorAt cs s = cs !! (s mod length cs) ∧ is_Some (colorAt cs s).
Proof.
  intros Hne. unfold colorAt.
  destruct cs as [|c cs]; [done|].
  cbn [length]. split; [done|].
  apply lookup_lt_is_Some_2. cbn [length].
  apply Nat.mod_upper_bound. lia.
Qed.

Lemma colorAt_empty (s : nat) : colorAt [] s = None.
Proof. done. Qed.

Lemma customColors_supplied (data : VisualizationData) (cs : list string) :
  extra_get colors data = Some cs → customColors data = cs.
Proof. intros H. unfold customColors. by rewrite H. Qed.

Lemma customColors_default (data : VisualizationData) (s : nat) :
  extra_get colors data = None →
  customColors data = COLORS ∧
  colorAt (customColors data) s = COLORS !! (s mod 8).
Proof. intros H. unfold customColors. rewrite H. done. Qed.

(** ** renderChart and the component *)

Lemma series_types_spec (ty : string) :
  ty ∈ series_types ↔ ty = "bar" ∨ ty = "line" ∨ ty = "timeseries".
Proof. unfold series_types. rewrite !elem_of_cons, elem_of_nil. tauto. Qed.

Lemma supported_types_spec (ty : string) :
  ty ∈ supported_types ↔
  ty = "line" ∨ ty = "bar" ∨ ty = "pie" ∨ ty = "boxplot" ∨
  ty = "scatter" ∨ ty = "histogram" ∨ ty = "timeseries".
Proof. unfold supported_types. rewrite !elem_of_cons, elem_of_nil. tauto. Qed.

Section render.
Variable data : VisualizationData.
Variable chartData : list point.
Variable cc : list string.

(** Reading [data.values[0]] is the only step that can fail. *)
Lemma renderChart_values_present (vs : list velem) :
  values data = Some vs → ∃ e, renderChart data chartData cc = Normal e.
Proof.
  intros Hv. unfold renderChart. cbv zeta. rewrite Hv. simpl.
  repeat (let H := fresh in next_case H; [eauto|]). eauto.
Qed.

Lemma renderChart_values_missing :
  values data = None → type data ∈ series_types →
  renderChart data chartData cc = Throw TypeError.
Proof.
  intros Hv Hty. apply series_types_spec in Hty.
  unfold renderChart. cbv zeta. rewrite Hv. simpl.
  next_case Hbar; [done|]. next_case Hline; [done|].
  tauto.
Qed.

Lemma renderChart_other_types :
  type data ∉ series_types → ∃ e, renderChart data chartData cc = Normal e.
Proof.
  intros Hty. rewrite series_types_spec in Hty.
  unfold renderChart. cbv zeta.
  next_case Hbar; [tauto|]. next_case Hline; [tauto|].
  repeat (let H := fresh in next_case H; [eauto|]). eauto.
Qed.

Lemma renderChart_default :
  type data ∉ supported_types →
  renderChart data chartData cc
  = Normal (Div ("Tipo de gráfico não suportado: " +:+ type data)).
Proof.
  intros Hty. rewrite supported_types_spec in Hty.
  unfold renderChart. cbv zeta.
  repeat (let H := fresh in next_case H; [tauto|]). done.
Qed.


Lemma renderChart_legend (e : element) :
  renderChart data chartData cc = Normal e →
  has_legend e = true ↔
  type data ∈ series_types ∧ is_Some (extra_get legendas data).
Proof.
  rewrite series_types_spec.
  unfold renderChart, legend_of. cbv zeta. intros H.
  next_case Hbar.
  { destruct (values data); run_completion.
    destruct (extra_get legendas data); split;
      [ intros _; split; [tauto | eauto] | done
      | done | intros [_ [? ?]]; done ]. }
  next_case Hline.
  { destruct (values data); run_completion.
    destruct (extra_get legendas data); split;
      [ intros _; split; [tauto | eauto] | done
      | done | intros [_ [? ?]]; done ]. }
  repeat (let Hty := fresh in next_case Hty;
          [ run_completion; split; [done | tauto] | ]).
  run_completion. split; [done | tauto].
Qed.

Lemma renderChart_pie :
  type data = "pie" →
  renderChart data chartData cc
  = Normal (PieChart
              (imap (λ index item,
                       <["fill" := color_val (colorAt cc index)]> item)
                    chartData)
              "value").
Proof. intros Hty. unfold renderChart. cbv zeta. rewrite Hty. done. Qed.

Lemma renderChart_histogram :
  type data = "histogram" →
  ∃ e, renderChart data chartData cc = Normal e ∧
       bar_gap e = Some 0 ∧
       y_axis_label e = when_truthy (extra_get yLabel data).
Proof.
  intros Hty. unfold renderChart. cbv zeta. rewrite Hty. simpl.
  eexists. split; [done|]. split; [done|]. simpl.
  destruct (extra_get yLabel data) as [s|]; [|done].
  simpl. by destruct (truthy s).
Qed.
End render.

Lemma Visualization_absent : Visualization None = Normal None.
Proof. done. Qed.

Lemma Visualization_card (data : VisualizationData) (e : element) :
  renderChart data (prepareChartData data) (customColors data) = Normal e →
  Visualization (Some data)
  = Normal (Some {| card_title := when_truthy (extra_get title data);
                    card_chart := e |}).
Proof. intros H. unfold Visualization. cbv zeta. by rewrite H. Qed.

Lemma Visualization_throws (data : VisualizationData) :
  values data = None → type data ∈ series_types →
  Visualization (Some data) = Throw TypeError.
Proof.
  intros Hv Hty. unfold Visualization. cbv zeta.
  by rewrite renderChart_values_missing.
Qed.

(** * The claims *)

(** ** Single-series points *)

(** C1. On a single-series payload (labels and values present, values a
    flat sequence of numbers) [prepareChartData] returns one point per
    label, and point [i] is
    [{name: labels[i], value: values[i], x: labels[i] or i, y: values[i]}],
    where [x] is the label when the label is a number and the index
    otherwise.  The spec's [category] key is the source's [name] key. *)
Theorem prepareChartData_single_series
    (data : VisualizationData) (ls : list label) (vs : list velem) :
  labels data = Some ls → values data = Some vs → single_series vs = true →
  length (prepareChartData data) = length ls ∧
  ∀ (i : nat) (l : label), ls !! i = Some l →
    prepareChartData data !! i =
    Some {[ "name" := label_val l;
            "value" := values_at vs i;
            "x" := match l with
                   | LNum n => JNum n
                   | LStr _ => JNum (Z.of_nat i)
                   end;
            "y" := values_at vs i ]}.
Proof.
  intros Hl Hv Hflat. split.
  - by apply prepareChartData_length with vs.
  - intros i l Hi.
    apply (prepareChartData_single data ls vs i l); try done.
    by apply single_series_not_array.
Qed.

Lemma prepareChartData_single_series_witness :
  single_series [VNum 10; VNum 20] = true ∧
  length (prepareChartData bar_jan_feb) = 2 ∧
  prepareChartData bar_jan_feb !! 1 =
  Some {[ "name" := JStr "Feb"; "value" := JNum 20;
          "x" := JNum 1; "y" := JNum 20 ]}.
Proof.
  destruct (prepareChartData_single_series bar_jan_feb
              [LStr "Jan"; LStr "Feb"] [VNum 10; VNum 20]
              eq_refl eq_refl eq_refl) as [Hlen Hpoint].
  split; [reflexivity|].
  split; [exact Hlen | exact (Hpoint 1 (LStr "Feb") eq_refl)].
Defined.

(** A numeric label becomes the [x] coordinate, and a position past the
    end of [values] reads as [undefined]. *)
Example prepareChartData_scatter_numeric :
  prepareChartData scatter_numeric =
  [ {[ "name" := JNum 7; "value" := JNum 1; "x" := JNum 7; "y" := JNum 1 ]};
    {[ "name" := JStr "b"; "value" := JNum 2; "x" := JNum 1; "y" := JNum 2 ]};
    {[ "name" := JNum 9; "value" := JUndefined; "x" := JNum 9;
       "y" := JUndefined ]} ].
Proof. reflexivity. Qed.

(** ** Empty payloads *)




(** The boxplot exception, on an example: with labels and values empty
    the area chart is drawn over [extra.quartis]. *)
Example empty_boxplot_draws_quartis :
  chart_points <$>
    chart_of (Visualization
                (Some {| type := "boxplot"; labels := Some [];
                         values := Some [];
                         extra := extra boxplot_ranges |})) =
  Some [ {[ "name" := JStr "q"; "value" := JNum 1; "max" := JNum 2 ]} ].
Proof. reflexivity. Qed.

(** ** Pie charts over several series *)

(** C3, as the spec states it, fails: a pie payload with two series is
    not rejected; the component renders a pie chart over the fan-out
    points, each with its fill colour. *)
Lemma pie_multi_series_renders_pie :
  Visualization (Some pie_two_series) =
  Normal (Some {| card_title := None;
                  card_chart :=
                    PieChart
                      [ {[ "name" := JStr "a"; "Série 1" := JNum 1;
                           "Série 2" := JNum 3; "fill" := JStr "#FFA500" ]};
                        {[ "name" := JStr "b"; "Série 1" := JNum 2;
                           "Série 2" := JNum 4; "fill" := JStr "#FFB300" ]} ]
                      "value" |}) ∧
  builds_chart (Visualization (Some pie_two_series)) = true.
Proof. split; reflexivity. Qed.

(** C3, amended.  For a pie payload whose values are a sequence of
    sequences (more than one, or just one) no error is produced: the
    component renders a pie chart keyed on ["value"], with one slice per
    label (none when labels are absent).  Slice [i] is the multi-series
    fan-out point of label [i] with the fill colour of index [i] added:
    it holds the label under [name] unless a series is so named, and
    [values[s][i]] in the field named after series [s], for every series
    whose name is not taken by a later series and is neither ["fill"] nor
    ["__proto__"]. *)
Theorem pie_multi_series_slices (data : VisualizationData) (vs : list velem) :
  type data = "pie" → values data = Some vs → multi_series vs = true →
  ∃ pieData,
    Visualization (Some data) =
    Normal (Some {| card_title := when_truthy (extra_get title data);
                    card_chart := PieChart pieData "value" |}) ∧
    length pieData = length (default [] (labels data)) ∧
    (∀ (i : nat) (p : point), pieData !! i = Some p →
       p !! "fill" = Some (color_val (colorAt (customColors data) i))) ∧
    (∀ (i : nat) (l : label), default [] (labels data) !! i = Some l →
       prepareChartData data !! i = Some (multiPoint data vs i l) ∧
       pieData !! i =
       Some (<["fill" := color_val (colorAt (customColors data) i)]>
               (multiPoint data vs i l)) ∧
       ((∀ s, s < length vs → seriesName data s ≠ "name") →
        ∃ p, pieData !! i = Some p ∧ p !! "name" = Some (label_val l))) ∧
    (∀ (i : nat) (p : point) (s : nat) (series : velem),
       pieData !! i = Some p → vs !! s = Some series →
       seriesName data s ≠ "fill" → seriesName data s ≠ "__proto__" →
       (∀ s', s < s' → s' < length vs →
              seriesName data s' ≠ seriesName data s) →
       p !! seriesName data s = Some (series_at series i)).
Proof.
  intros Hty Hv Hmulti.
  assert (Harr := multi_series_is_array vs Hmulti).
  assert (Hpoint : ∀ i l, default [] (labels data) !! i = Some l →
            prepareChartData data !! i = Some (multiPoint data vs i l)).
  { intros i l Hi. destruct (labels data) as [ls|] eqn:Hl; [|done].
    by apply prepareChartData_multi with ls. }
  assert (Hlen : length (prepareChartData data)
                 = length (default [] (labels data))).
  { destruct (labels data) as [ls|] eqn:Hl.
    - by apply prepareChartData_length with vs.
    - rewrite prepareChartData_missing; [done | by left]. }
  eexists. split; [|split; [|split; [|split]]].
  - apply Visualization_card. by apply renderChart_pie.
  - by rewrite length_imap.
  - intros i p Hp.
    apply list_lookup_imap_Some in Hp as (item & _ & ->).
    apply lookup_insert_eq.
  - intros i l Hi. split; [by apply Hpoint|].
    assert (Hslice : imap (λ index item,
                             <["fill" := color_val
                                           (colorAt (customColors data) index)]>
                               item)
                          (prepareChartData data) !! i =
                     Some (<["fill" := color_val
                                         (colorAt (customColors data) i)]>
                             (multiPoint data vs i l)))
      by (by rewrite list_lookup_imap, (Hpoint i l Hi)).
    split; [exact Hslice|].
    intros Hname. eexists. split; [exact Hslice|].
    rewrite lookup_insert_ne by done.
    unfold multiPoint. rewrite forEach_series_other; [done|].
    intros j Hj. by apply Hname.
  - intros i p s series Hp Hs Hfill Hproto Hlast.
    apply list_lookup_imap_Some in Hp as (item & Hitem & ->).
    assert (Hi : i < length (default [] (labels data))).
    { rewrite <- Hlen. by apply lookup_lt_Some in Hitem. }
    destruct (lookup_lt_is_Some_2 _ i Hi) as [l Hl].
    rewrite (Hpoint i l Hl) in Hitem. simplify_eq.
    rewrite lookup_insert_ne by done.
    unfold multiPoint.
    by apply (forEach_series_lookup data i vs 0 _ s series).
Qed.

Lemma pie_multi_series_slices_witness :
  multi_series [VArr [1; 2]; VArr [3; 4]]%Z = true ∧
  ∃ pieData,
    Visualization (Some pie_two_series) =
    Normal (Some {| card_title := None;
                    card_chart := PieChart pieData "value" |}) ∧
    length pieData = 2 ∧
    (∀ (i : nat) (p : point), pieData !! i = Some p →
       p !! "fill" = Some (color_val (colorAt COLORS i))) ∧
    pieData !! 1 =
    Some (<["fill" := JStr "#FFB300"]>
            (multiPoint pie_two_series [VArr [1; 2]; VArr [3; 4]]%Z 1
               (LStr "b"))) ∧
    (∀ p, pieData !! 1 = Some p → p !! "Série 1" = Some (JNum 2)).
Proof.
  split; [reflexivity|].
  destruct (pie_multi_series_slices pie_two_series
              [VArr [1; 2]; VArr [3; 4]]%Z eq_refl eq_refl eq_refl)
    as (pieData & Hcard & Hlen & Hfill & Hslice & Hfield).
  exists pieData.
  split; [exact Hcard|]. split; [exact Hlen|]. split; [exact Hfill|].
  split; [exact (proj1 (proj2 (Hslice 1 (LStr "b") eq_refl)))|].
  intros p Hp.
  refine (Hfield 1 p 0 (VArr [1; 2]%Z) Hp eq_refl _ _ _).
  - discriminate.
  - discriminate.
  - intros s' Hlo Hhi. simpl in Hhi.
    assert (s' = 1) as -> by lia. discriminate.
Defined.

(** ** Unsupported chart types *)

(** C4. A payload whose type is none of the seven supported ones makes
    the component return, without throwing, the card holding the
    placeholder that names the unsupported type; no chart is built. *)
Theorem unsupported_type_fallback (data : VisualizationData) :
  type data ∉ supported_types →
  Visualization (Some data) =
  Normal (Some {| card_title := when_truthy (extra_get title data);
                  card_chart :=
                    Div ("Tipo de gráfico não suportado: " +:+ type data) |}) ∧
  builds_chart (Visualization (Some data)) = false.
Proof.
  intros Hty.
  assert (Hcard := Visualization_card data _
                     (renderChart_default data (prepareChartData data)
                        (customColors data) Hty)).
  split; [exact Hcard|]. by rewrite Hcard.
Qed.

Lemma unsupported_type_fallback_witness :
  ("foo" ∉ supported_types) ∧
  Visualization (Some foo_kind) =
  Normal (Some {| card_title := None;
                  card_chart := Div "Tipo de gráfico não suportado: foo" |}) ∧
  builds_chart (Visualization (Some foo_kind)) = false.
Proof.
  assert (Hfoo : "foo" ∉ supported_types)
    by (apply (bool_decide_eq_false_1 ("foo" ∈ supported_types));
        reflexivity).
  split; [exact Hfoo|].
  exact (unsupported_type_fallback foo_kind Hfoo).
Defined.

(** ** Synthesized series names *)

(** C5, as the spec states it, fails on the text of the name: with
    [legendas = ["Wind"]] the second series is named ["Série 2"], which
    is not the string ["Series 2"]. *)
Lemma seriesName_is_not_english :
  seriesName line_wind 0 = "Wind" ∧
  seriesName line_wind 1 = "Série 2" ∧
  seriesName line_wind 1 ≠ "Series 2".
Proof. split; [reflexivity|]. split; [reflexivity | discriminate]. Qed.

(** C5, amended.  At every series index [s] where [legendas] is absent,
    has no entry, or has the empty string, the resolved name is exactly
    ["Série "] followed by the decimal [s + 1]; in particular with
    [legendas = ["Wind"]] the second series is named ["Série 2"], which
    differs from the supplied name. *)
Theorem seriesName_default (data : VisualizationData) (s : nat) :
  legenda_at data s = None ∨ legenda_at data s = Some "" →
  seriesName data s = "Série " +:+ pretty (s + 1) ∧
  (extra_get legendas data = Some ["Wind"] → s = 1 →
   seriesName data 0 = "Wind" ∧ seriesName data s = "Série 2" ∧
   (seriesName data s ∉ ["Wind"])).
Proof.
  intros Hs.
  assert (Hname := seriesName_fallback data s Hs).
  split; [exact Hname|].
  intros Hleg ->. rewrite Hname.
  split; [|split].
  - apply seriesName_explicit; [|done]. unfold legenda_at. by rewrite Hleg.
  - reflexivity.
  - rewrite elem_of_cons, elem_of_nil. intros [? | []]. discriminate.
Qed.

Lemma seriesName_default_witness :
  legenda_at line_wind 1 = None ∧
  seriesName line_wind 1 = "Série " +:+ pretty 2 ∧
  seriesName line_wind 0 = "Wind" ∧
  seriesName line_wind 1 = "Série 2" ∧
  (seriesName line_wind 1 ∉ ["Wind"]).
Proof.
  destruct (seriesName_default line_wind 1 (or_introl eq_refl))
    as [Hname Hwind].
  split; [reflexivity|]. split; [exact Hname|].
  exact (Hwind eq_refl eq_refl).
Defined.

(** ** The legend *)

(** C6, as the spec states it, fails: a bar chart over two series with no
    [legendas] carries no legend. *)
Lemma two_series_without_legend :
  multi_series [VArr [1; 2]; VArr [3; 4]]%Z = true ∧
  Visualization (Some bar_two_series) =
  Normal (Some {| card_title := None;
                  card_chart :=
                    BarChart
                      [ {[ "name" := JStr "a"; "Série 1" := JNum 1;
                           "Série 2" := JNum 3 ]};
                        {[ "name" := JStr "b"; "Série 1" := JNum 2;
                           "Série 2" := JNum 4 ]} ]
                      None None None
                      [ {| bar_dataKey := "Série 1";
                           bar_fill := Some "#FFA500";
                           bar_labelList := false |};
                        {| bar_dataKey := "Série 2";
                           bar_fill := Some "#FFB300";
                           bar_labelList := false |} ]
                      false |}).
Proof. split; reflexivity. Qed.

(** C6, amended.  Whenever values are present, the chart carries a legend
    exactly when its type is bar, line or timeseries and [legendas] is
    present; the number of series plays no part, and the other types
    never carry one. *)
Theorem legend_iff_legendas (data : VisualizationData) (vs : list velem) :
  values data = Some vs →
  ∃ e, Visualization (Some data) =
       Normal (Some {| card_title := when_truthy (extra_get title data);
                       card_chart := e |}) ∧
       (has_legend e = true ↔
        type data ∈ series_types ∧ is_Some (extra_get legendas data)).
Proof.
  intros Hv.
  destruct (renderChart_values_present data (prepareChartData data)
              (customColors data) vs Hv) as [e He].
  exists e. split; [by apply Visualization_card|].
  by apply renderChart_legend in He.
Qed.

Lemma legend_iff_legendas_witness :
  values line_wind = Some [VArr [1; 2]; VArr [3; 4]]%Z ∧
  ∃ e, Visualization (Some line_wind) =
       Normal (Some {| card_title := None; card_chart := e |}) ∧
       (has_legend e = true ↔
        "line" ∈ series_types ∧ is_Some (Some ["Wind"])).
Proof.
  split; [reflexivity|].
  exact (legend_iff_legendas line_wind [VArr [1; 2]; VArr [3; 4]]%Z eq_refl).
Defined.

(** ** Colours *)

(** C7 at an empty palette.  [colors = []] is taken as the palette, so
    every series colour is [undefined], where the claim asks for the
    built-in palette ([#FFA500] and [#FFB300] for the first two series). *)
Theorem empty_palette_gives_no_color :
  extra_get colors bar_empty_palette = Some [] ∧
  customColors bar_empty_palette = [] ∧
  Visualization (Some bar_empty_palette) =
  Normal (Some {| card_title := None;
                  card_chart :=
                    BarChart
                      [ {[ "name" := JStr "a"; "Série 1" := JNum 1;
                           "Série 2" := JNum 2 ]} ]
                      None None None
                      [ {| bar_dataKey := "Série 1";
                           bar_fill := None;
                           bar_labelList := false |};
                        {| bar_dataKey := "Série 2";
                           bar_fill := None;
                           bar_labelList := false |} ]
                      false |}) ∧
  COLORS !! (0 mod 8) = Some "#FFA500" ∧
  COLORS !! (1 mod 8) = Some "#FFB300".
Proof. repeat split; reflexivity. Qed.

(** ** Histograms *)

(** C8 at a histogram without [yLabel].  The bars are contiguous
    ([barCategoryGap = 0]) but the y axis has no label: the
    ["Frequência"] default sits in the branch taken only when [yLabel]
    is already set. *)
Theorem histogram_y_label_not_defaulted :
  Visualization (Some histogram_0_10) =
  Normal (Some {| card_title := None;
                  card_chart :=
                    BarChart
                      [ {[ "name" := JStr "0-10"; "value" := JNum 5;
                           "x" := JNum 0; "y" := JNum 5 ]} ]
                      (Some 0) None None
                      [ {| bar_dataKey := "value";
                           bar_fill := Some "#FFA500";
                           bar_labelList := false |} ]
                      false |}) ∧
  y_axis_label <$> chart_of (Visualization (Some histogram_0_10)) = Some None ∧
  bar_gap <$> chart_of (Visualization (Some histogram_0_10)) = Some (Some 0).
Proof. repeat split; reflexivity. Qed.

(** ** Series shorter than the labels *)

(** C9, as the spec states it, fails when two series resolve to the same
    name: the first series has one value, yet at index 1 its field holds
    the second series' value, not [undefined]. *)
Lemma same_name_overwrites_short_series :
  values line_same_names = Some [VArr [1]; VArr [2; 3]]%Z ∧
  seriesName line_same_names 0 = "A" ∧
  series_at (VArr [1]%Z) 1 = JUndefined ∧
  prepareChartData line_same_names =
  [ {[ "name" := JStr "a"; "A" := JNum 2 ]};
    {[ "name" := JStr "b"; "A" := JNum 3 ]} ].
Proof. repeat split; reflexivity. Qed.

(** C9, amended.  On a multi-series payload, for a series [s] shorter
    than the labels whose resolved name is not the resolved name of a
    later series and is not ["__proto__"], the point at every index past
    the series' end holds [undefined] in that series' field.  Nothing is
    cut: there is one point per label, every point has a field for every
    series not named ["__proto__"], and the component returns its card
    without throwing. *)
Theorem short_series_padded (data : VisualizationData)
    (ls : list label) (vs : list velem) (s : nat) (l : list Z) (i : nat) :
  labels data = Some ls → values data = Some vs → multi_series vs = true →
  vs !! s = Some (VArr l) → length l ≤ i → i < length ls →
  (∀ s', s < s' → s' < length vs →
         seriesName data s' ≠ seriesName data s) →
  seriesName data s ≠ "__proto__" →
  length (prepareChartData data) = length ls ∧
  (∃ p, prepareChartData data !! i = Some p ∧
        p !! seriesName data s = Some JUndefined) ∧
  (∀ (j : nat) (p : point) (s' : nat),
     prepareChartData data !! j = Some p → s' < length vs →
     seriesName data s' ≠ "__proto__" →
     is_Some (p !! seriesName data s')) ∧
  (∃ e, Visualization (Some data) =
        Normal (Some {| card_title := when_truthy (extra_get title data);
                        card_chart := e |})).
Proof.
  intros Hl Hv Hmulti Hs Hshort Hi Hlast Hproto.
  assert (Harr := multi_series_is_array vs Hmulti).
  split; [by apply prepareChartData_length with vs|].
  split; [|split].
  - destruct (lookup_lt_is_Some_2 ls i Hi) as [lab Hlab].
    exists (multiPoint data vs i lab). split.
    + by apply prepareChartData_multi with ls.
    + unfold multiPoint.
      rewrite (forEach_series_lookup data i vs 0 _ s (VArr l) Hs Hproto Hlast).
      by rewrite series_at_short.
  - intros j p s' Hp Hs' Hproto'.
    unfold prepareChartData in Hp. rewrite Hl, Hv, Harr in Hp.
    apply list_lookup_imap_Some in Hp as (lab & _ & ->).
    apply (forEach_series_field data j vs 0 _ s' Hs' Hproto').
  - destruct (renderChart_values_present data (prepareChartData data)
                (customColors data) vs Hv) as [e He].
    exists e. by apply Visualization_card.
Qed.

Lemma short_series_padded_witness :
  (multi_series [VArr [1]; VArr [3; 4]]%Z = true ∧
   length [1%Z] ≤ 1 ∧ 1 < length [LStr "t1"; LStr "t2"] ∧
   seriesName line_short_series 0 ≠ "__proto__") ∧
  length (prepareChartData line_short_series) = 2 ∧
  (∃ p, prepareChartData line_short_series !! 1 = Some p ∧
        p !! "Série 1" = Some JUndefined) ∧
  (∀ (j : nat) (p : point) (s' : nat),
     prepareChartData line_short_series !! j = Some p → s' < 2 →
     seriesName line_short_series s' ≠ "__proto__" →
     is_Some (p !! seriesName line_short_series s')) ∧
  (∃ e, Visualization (Some line_short_series) =
        Normal (Some {| card_title := None; card_chart := e |})).
Proof.
  split; [split; [reflexivity | split; [simpl; lia | split;
                                         [simpl; lia | discriminate]]]|].
  apply (short_series_padded line_short_series
           [LStr "t1"; LStr "t2"] [VArr [1]; VArr [3; 4]]%Z 0 [1%Z] 1
           eq_refl eq_refl eq_refl eq_refl).
  - simpl. lia.
  - simpl. lia.
  - intros s' Hlo Hhi. simpl in Hhi.
    assert (s' = 1) as -> by lia. discriminate.
  - discriminate.
Defined.

(** The padding itself, read off the sample payload. *)
Example prepareChartData_line_short_series :
  prepareChartData line_short_series =
  [ {[ "name" := JStr "t1"; "Série 1" := JNum 1; "Série 2" := JNum 3 ]};
    {[ "name" := JStr "t2"; "Série 1" := JUndefined; "Série 2" := JNum 4 ]} ].
Proof. reflexivity. Qed.

(** A series called ["__proto__"] leaves no field at all: the write
    goes to the prototype setter, which ignores numbers. *)
Example prepareChartData_proto_series :
  prepareChartData (line_legendas ["__proto__"; "Solar"]) =
  [ {[ "name" := JStr "t1"; "Solar" := JNum 3 ]};
    {[ "name" := JStr "t2"; "Solar" := JNum 4 ]} ].
Proof. reflexivity. Qed.

(** ** Totality of the component *)

(** C10 at a bar payload without values.  The point list is empty, as
    the guard of [prepareChartData] arranges, but the bar branch then
    reads [data.values[0]] unguarded and the component throws. *)
Theorem missing_values_throws :
  Visualization None = Normal None ∧
  prepareChartData bar_no_values = [] ∧
  Visualization (Some bar_no_values) = Throw TypeError.
Proof. repeat split; reflexivity. Qed.

(** X9. The component throws on exactly those payloads: values absent
    and a type (bar, line, timeseries) whose branch looks at the first
    value. *)
Lemma Visualization_throws_iff (data : VisualizationData) :
  Visualization (Some data) = Throw TypeError ↔
  values data = None ∧ type data ∈ series_types.
Proof.
  split.
  - intros Hthrow.
    destruct (values data) as [vs|] eqn:Hv.
    + destruct (renderChart_values_present data (prepareChartData data)
                  (customColors data) vs Hv) as [e He].
      by rewrite (Visualization_card data e He) in Hthrow.
    + split; [done|].
      destruct (decide (type data ∈ series_types)) as [Hin|Hout]; [done|].
      destruct (renderChart_other_types data (prepareChartData data)
                  (customColors data) Hout) as [e He].
      by rewrite (Visualization_card data e He) in Hthrow.
  - intros [Hv Hty]. by apply Visualization_throws.
Qed.


(** * Further properties of the adapter *)

(** ** Helper facts *)

Lemma singlePoint_name (vs : list velem) (i : nat) (l : label) :
  singlePoint vs i l !! "name" = Some (label_val l).
Proof. reflexivity. Qed.

Lemma singlePoint_value (vs : list velem) (i : nat) (l : label) :
  singlePoint vs i l !! "value" = Some (values_at vs i).
Proof. reflexivity. Qed.

Lemma singlePoint_y (vs : list velem) (i : nat) (l : label) :
  singlePoint vs i l !! "y" = Some (values_at vs i).
Proof. reflexivity. Qed.

Lemma seriesNames_lookup (data : VisualizationData) (vs : list velem)
    (s : nat) :
  s < length vs → seriesNames data vs !! s = Some (seriesName data s).
Proof.
  intros Hs. unfold seriesNames.
  by rewrite list_lookup_fmap, lookup_seq_lt.
Qed.

Lemma seriesNames_elem (data : VisualizationData) (vs : list velem)
    (k : string) :
  k ∈ seriesNames data vs ↔ ∃ s, s < length vs ∧ seriesName data s = k.
Proof.
  unfold seriesNames. rewrite list_elem_of_fmap. split.
  - intros (s & -> & Hs). apply elem_of_seq in Hs. exists s. split; [lia|done].
  - intros (s & Hs & <-). exists s. split; [done|]. apply elem_of_seq. lia.
Qed.

Lemma seriesNames_NoDup_later (data : VisualizationData) (vs : list velem)
    (s s' : nat) :
  NoDup (seriesNames data vs) → s < s' → s' < length vs →
  seriesName data s' ≠ seriesName data s.
Proof.
  intros Hnd Hlt Hlen Heq.
  assert (s = s'); [|lia].
  apply (NoDup_lookup _ s s' (seriesName data s) Hnd).
  - apply seriesNames_lookup. lia.
  - rewrite <- Heq. by apply seriesNames_lookup.
Qed.

(** The fields of a fan-out point: the ones it started with and one per
    series name, when no series is called ["__proto__"]. *)
Lemma forEach_series_dom (data : VisualizationData) (index : nat)
    (vs : list velem) :
  ∀ (s0 : nat) (dp : point),
    (∀ j, j < length vs → seriesName data (s0 + j) ≠ "__proto__") →
    dom (forEach_series data index s0 vs dp)
    = dom dp ∪ list_to_set (seriesName data <$> seq s0 (length vs)).
Proof.
  induction vs as [|v rest IH]; intros s0 dp Hproto; simpl.
  - by rewrite (right_id_L ∅ (∪)).
  - rewrite IH.
    + unfold set_field.
      destruct (decide (seriesName data s0 = "__proto__")) as [Heq|_].
      { exfalso. apply (Hproto 0); [simpl; lia|].
        by rewrite Nat.add_0_r. }
      rewrite dom_insert_L.
      rewrite (comm_L (∪) {[seriesName data s0]} (dom dp)).
      by rewrite <- (assoc_L (∪)).
    + intros j Hj. replace (S s0 + j) with (s0 + S j) by lia.
      apply Hproto. simpl. lia.
Qed.

Lemma default_names_NoDup (data : VisualizationData) (vs : list velem) :
  extra_get legendas data = None → NoDup (seriesNames data vs).
Proof.
  intros Hleg. unfold seriesNames. apply NoDup_fmap_2_strong.
  - intros s s' _ _. rewrite !seriesName_no_legendas by done.
    intros Heq. apply (inj (String.append "Série ")) in Heq.
    apply (inj pretty) in Heq. lia.
  - apply NoDup_seq.
Qed.

Lemma default_name_not_key (data : VisualizationData) (s : nat) (k : string) :
  extra_get legendas data = None →
  (k = "name" ∨ k = "value" ∨ k = "__proto__") →
  seriesName data s ≠ k.
Proof.
  intros Hleg Hk. rewrite seriesName_no_legendas by done.
  destruct Hk as [-> | [-> | ->]]; discriminate.
Qed.

Lemma default_names_not_key (data : VisualizationData) (vs : list velem)
    (k : string) :
  extra_get legendas data = None →
  (k = "name" ∨ k = "value" ∨ k = "__proto__") →
  k ∉ seriesNames data vs.
Proof.
  intros Hleg Hk Hin. apply seriesNames_elem in Hin as (s & _ & Hs).
  by apply (default_name_not_key data s k Hleg).
Qed.

(** ** The fan-out, field by field *)

(** X1. With labels and values present there is exactly one point per
    label whatever the shape and the length of values, and unless a series
    is named ["name"] each point carries its label in the [name] field. *)
Theorem one_point_per_label (data : VisualizationData)
    (ls : list label) (vs : list velem) :
  labels data = Some ls → values data = Some vs →
  (∀ s, s < length vs → seriesName data s ≠ "name") →
  length (prepareChartData data) = length ls ∧
  ∀ (i : nat) (l : label), ls !! i = Some l →
    ∃ p, prepareChartData data !! i = Some p ∧
         p !! "name" = Some (label_val l).
Proof.
  intros Hl Hv Hname. split; [by apply prepareChartData_length with vs|].
  intros i l Hi.
  destruct (isArray (vs !! 0)) eqn:Harr.
  - exists (multiPoint data vs i l).
    split; [by apply prepareChartData_multi with ls|].
    unfold multiPoint. rewrite forEach_series_other; [done|].
    intros j Hj. by apply Hname.
  - exists (singlePoint vs i l).
    split; [by apply prepareChartData_single with ls | done].
Qed.

Lemma one_point_per_label_witness :
  (∀ s, s < 2 → seriesName line_wind s ≠ "name") ∧
  length (prepareChartData line_wind) = 2 ∧
  ∀ (i : nat) (l : label), [LStr "t1"; LStr "t2"] !! i = Some l →
    ∃ p, prepareChartData line_wind !! i = Some p ∧
         p !! "name" = Some (label_val l).
Proof.
  assert (Hname : ∀ s, s < 2 → seriesName line_wind s ≠ "name").
  { intros s Hs. destruct s as [|[|s]]; [discriminate | discriminate | lia]. }
  split; [exact Hname|].
  exact (one_point_per_label line_wind [LStr "t1"; LStr "t2"]
           [VArr [1; 2]; VArr [3; 4]]%Z eq_refl eq_refl Hname).
Defined.

Lemma multiPoint_name (data : VisualizationData) (vs : list velem)
    (i : nat) (l : label) :
  "name" ∉ seriesNames data vs →
  multiPoint data vs i l !! "name" = Some (label_val l).
Proof.
  intros Hname. unfold multiPoint. rewrite forEach_series_other; [done|].
  intros j Hj Heq. apply Hname, seriesNames_elem. eauto.
Qed.

Lemma multiPoint_field (data : VisualizationData) (vs : list velem)
    (i : nat) (l : label) (s : nat) (series : velem) :
  NoDup (seriesNames data vs) → "__proto__" ∉ seriesNames data vs →
  vs !! s = Some series →
  multiPoint data vs i l !! seriesName data s = Some (series_at series i).
Proof.
  intros Hnd Hproto Hs. unfold multiPoint.
  apply (forEach_series_lookup data i vs 0 _ s series Hs).
  - intros Heq. apply Hproto, seriesNames_elem. exists s.
    split; [by apply lookup_lt_Some in Hs | done].
  - intros s' Hlt Hlen. by apply seriesNames_NoDup_later with vs.
Qed.

Lemma multiPoint_size (data : VisualizationData) (vs : list velem)
    (i : nat) (l : label) :
  NoDup (seriesNames data vs) → "name" ∉ seriesNames data vs →
  "__proto__" ∉ seriesNames data vs →
  size (multiPoint data vs i l) = S (length vs).
Proof.
  intros Hnd Hname Hproto. unfold multiPoint.
  rewrite <- size_dom, forEach_series_dom, dom_singleton_L.
  - rewrite size_union.
    + rewrite size_singleton, size_list_to_set by exact Hnd.
      unfold seriesNames. by rewrite length_fmap, length_seq.
    + intros k Hk1 Hk2. apply elem_of_singleton in Hk1 as ->.
      by apply elem_of_list_to_set in Hk2.
  - intros j Hj Heq. apply Hproto, seriesNames_elem. eauto.
Qed.

(** X2. On the multi-series path, when the resolved series names are
    pairwise distinct and none of them is ["name"] or ["__proto__"], each
    point has exactly one field per series besides its label: the field
    named after series [s] holds [values[s][i]]. *)
Theorem fan_out_fields (data : VisualizationData)
    (ls : list label) (vs : list velem) (i : nat) (l : label) :
  labels data = Some ls → values data = Some vs →
  isArray (vs !! 0) = true → ls !! i = Some l →
  NoDup (seriesNames data vs) → "name" ∉ seriesNames data vs →
  "__proto__" ∉ seriesNames data vs →
  ∃ p, prepareChartData data !! i = Some p ∧
       p !! "name" = Some (label_val l) ∧
       (∀ (s : nat) (series : velem), vs !! s = Some series →
          p !! seriesName data s = Some (series_at series i)) ∧
       size p = S (length vs).
Proof.
  intros Hl Hv Harr Hi Hnd Hname Hproto.
  exists (multiPoint data vs i l).
  split; [by apply prepareChartData_multi with ls|].
  split; [by apply multiPoint_name|]. split.
  - intros s series Hs. by apply multiPoint_field.
  - by apply multiPoint_size.
Qed.

Lemma fan_out_fields_witness :
  (NoDup (seriesNames (line_legendas ["Wind"; "Solar"])
            [VArr [1; 2]; VArr [3; 4]]%Z) ∧
   ("name" ∉ seriesNames (line_legendas ["Wind"; "Solar"])
               [VArr [1; 2]; VArr [3; 4]]%Z) ∧
   ("__proto__" ∉ seriesNames (line_legendas ["Wind"; "Solar"])
                    [VArr [1; 2]; VArr [3; 4]]%Z)) ∧
  ∃ p, prepareChartData (line_legendas ["Wind"; "Solar"]) !! 1 = Some p ∧
       p !! "name" = Some (JStr "t2") ∧
       (∀ (s : nat) (series : velem),
          [VArr [1; 2]; VArr [3; 4]]%Z !! s = Some series →
          p !! seriesName (line_legendas ["Wind"; "Solar"]) s
          = Some (series_at series 1)) ∧
       size p = 3.
Proof.
  assert (Hnd : NoDup (seriesNames (line_legendas ["Wind"; "Solar"])
                         [VArr [1; 2]; VArr [3; 4]]%Z)).
  { apply (bool_decide_unpack _). reflexivity. }
  assert (Hname : "name" ∉ seriesNames (line_legendas ["Wind"; "Solar"])
                             [VArr [1; 2]; VArr [3; 4]]%Z).
  { apply (bool_decide_eq_false_1
             ("name" ∈ seriesNames (line_legendas ["Wind"; "Solar"])
                         [VArr [1; 2]; VArr [3; 4]]%Z)).
    reflexivity. }
  assert (Hproto : "__proto__" ∉ seriesNames (line_legendas ["Wind"; "Solar"])
                                  [VArr [1; 2]; VArr [3; 4]]%Z).
  { apply (bool_decide_eq_false_1
             ("__proto__" ∈ seriesNames (line_legendas ["Wind"; "Solar"])
                              [VArr [1; 2]; VArr [3; 4]]%Z)).
    reflexivity. }
  split; [by repeat split|].
  exact (fan_out_fields (line_legendas ["Wind"; "Solar"])
           [LStr "t1"; LStr "t2"] [VArr [1; 2]; VArr [3; 4]]%Z 1 (LStr "t2")
           eq_refl eq_refl eq_refl eq_refl Hnd Hname Hproto).
Defined.

(** X3. Without [legendas] nothing can clash: every point of a
    multi-series payload has its label and, for every series [s], the
    field ["Série s+1"] holding [values[s][i]] ([undefined] past the end
    of the series), and no other field. *)
Theorem fan_out_default_names (data : VisualizationData)
    (ls : list label) (vs : list velem) (i : nat) (l : label) :
  labels data = Some ls → values data = Some vs →
  isArray (vs !! 0) = true → ls !! i = Some l →
  extra_get legendas data = None →
  ∃ p, prepareChartData data !! i = Some p ∧
       p !! "name" = Some (label_val l) ∧
       (∀ (s : nat) (series : velem), vs !! s = Some series →
          p !! ("Série " +:+ pretty (s + 1)) = Some (series_at series i)) ∧
       size p = S (length vs).
Proof.
  intros Hl Hv Harr Hi Hleg.
  assert (Hnd := default_names_NoDup data vs Hleg).
  assert (Hname : "name" ∉ seriesNames data vs)
    by (apply default_names_not_key; tauto).
  assert (Hproto : "__proto__" ∉ seriesNames data vs)
    by (apply default_names_not_key; tauto).
  exists (multiPoint data vs i l).
  split; [by apply prepareChartData_multi with ls|].
  split; [by apply multiPoint_name|]. split.
  - intros s series Hs. rewrite <- (seriesName_no_legendas data s Hleg).
    by apply multiPoint_field.
  - by apply multiPoint_size.
Qed.

Lemma fan_out_default_names_witness :
  extra_get legendas line_short_series = None ∧
  ∃ p, prepareChartData line_short_series !! 1 = Some p ∧
       p !! "name" = Some (JStr "t2") ∧
       (∀ (s : nat) (series : velem),
          [VArr [1]; VArr [3; 4]]%Z !! s = Some series →
          p !! ("Série " +:+ pretty (s + 1)) = Some (series_at series 1)) ∧
       size p = 3.
Proof.
  split; [reflexivity|].
  exact (fan_out_default_names line_short_series
           [LStr "t1"; LStr "t2"] [VArr [1]; VArr [3; 4]]%Z 1 (LStr "t2")
           eq_refl eq_refl eq_refl eq_refl eq_refl).
Defined.

(** X4. When several series resolve to one name, or a series is named
    like the label field, the field holds what the last of them wrote:
    for a series [s] that no later series shares its name with, the field
    named after [s] holds [values[s][i]], whatever was there before.  The
    one name this does not hold for is ["__proto__"], under which nothing
    is written: the fields are those the other series leave, and there is
    none of that name. *)
Theorem last_series_wins (data : VisualizationData)
    (ls : list label) (vs : list velem) (i : nat) (l : label)
    (s : nat) (series : velem) :
  labels data = Some ls → values data = Some vs →
  isArray (vs !! 0) = true → ls !! i = Some l →
  vs !! s = Some series →
  (∀ s', s < s' → s' < length vs →
         seriesName data s' ≠ seriesName data s) →
  ∃ p, prepareChartData data !! i = Some p ∧
       p !! "__proto__" = None ∧
       (seriesName data s ≠ "__proto__" →
        p !! seriesName data s = Some (series_at series i)).
Proof.
  intros Hl Hv Harr Hi Hs Hlast.
  exists (multiPoint data vs i l).
  split; [by apply prepareChartData_multi with ls|].
  unfold multiPoint. split.
  - by rewrite forEach_series_proto.
  - intros Hproto.
    by apply (forEach_series_lookup data i vs 0 _ s series).
Qed.

(** A series named ["name"] takes the place of the label. *)
Lemma last_series_wins_witness :
  (∀ s', 0 < s' → s' < 2 →
         seriesName (line_legendas ["name"; "Solar"]) s'
         ≠ seriesName (line_legendas ["name"; "Solar"]) 0) ∧
  ∃ p, prepareChartData (line_legendas ["name"; "Solar"]) !! 1 = Some p ∧
       p !! "__proto__" = None ∧
       p !! "name" = Some (JNum 2).
Proof.
  assert (Hlast : ∀ s', 0 < s' → s' < 2 →
            seriesName (line_legendas ["name"; "Solar"]) s'
            ≠ seriesName (line_legendas ["name"; "Solar"]) 0).
  { intros s' Hlo Hhi. assert (s' = 1) as -> by lia. discriminate. }
  split; [exact Hlast|].
  destruct (last_series_wins (line_legendas ["name"; "Solar"])
           [LStr "t1"; LStr "t2"] [VArr [1; 2]; VArr [3; 4]]%Z 1 (LStr "t2")
           0 (VArr [1; 2]%Z) eq_refl eq_refl eq_refl eq_refl eq_refl Hlast)
    as (p & Hp & Hnone & Hfield).
  exists p. split; [exact Hp|]. split; [exact Hnone|].
  apply Hfield. discriminate.
Defined.

(** ** What the chart reads is there *)

Lemma values_at_defined (vs : list velem) (i : nat) :
  i < length vs → values_at vs i ≠ JUndefined.
Proof.
  intros Hi. unfold values_at.
  destruct (lookup_lt_is_Some_2 vs i Hi) as [v ->]. by destruct v.
Qed.

Lemma series_at_defined (series : velem) (l : list Z) (i : nat) :
  series = VArr l → i < length l → series_at series i ≠ JUndefined.
Proof.
  intros -> Hi. simpl.
  by destruct (lookup_lt_is_Some_2 l i Hi) as [n ->].
Qed.

(** Writing defined values leaves defined values. *)
Lemma forEach_series_defined (data : VisualizationData) (index : nat)
    (vs : list velem) :
  (∀ series, series ∈ vs → series_at series index ≠ JUndefined) →
  ∀ (s0 : nat) (dp : point),
    (∀ k v, dp !! k = Some v → v ≠ JUndefined) →
    ∀ k v, forEach_series data index s0 vs dp !! k = Some v → v ≠ JUndefined.
Proof.
  induction vs as [|series rest IH]; intros Hvs s0 dp Hdp k v; simpl;
    [by apply Hdp|].
  apply IH.
  - intros series' Hin. apply Hvs. by right.
  - intros k' v'. unfold set_field.
    destruct (decide (seriesName data s0 = "__proto__")); [by apply Hdp|].
    rewrite lookup_insert. case_decide.
    + intros [= <-]. apply Hvs. by left.
    + by apply Hdp.
Qed.

Section points.
Variable data : VisualizationData.
Variable ls : list label.
Variable vs : list velem.
Hypothesis Hl : labels data = Some ls.
Hypothesis Hv : values data = Some vs.

Lemma prepareChartData_elem (p : point) :
  p ∈ prepareChartData data →
  ∃ (i : nat) (l : label), ls !! i = Some l ∧
    p = if isArray (vs !! 0) then multiPoint data vs i l
        else singlePoint vs i l.
Proof.
  unfold prepareChartData. rewrite Hl, Hv.
  destruct (isArray (vs !! 0)); intros Hp;
    apply elem_of_lookup_imap_1 in Hp as (i & l & -> & Hi); eauto.
Qed.

(** On the multi-series path, under [covers], no field of a point holds
    [undefined]. *)
Lemma multi_points_defined (p : point) (k : string) (v : jsval) :
  isArray (vs !! 0) = true → covers ls vs → p ∈ prepareChartData data →
  p !! k = Some v → v ≠ JUndefined.
Proof.
  intros Harr Hcov Hp.
  apply prepareChartData_elem in Hp as (i & l & Hi & ->). rewrite Harr.
  unfold covers in Hcov. rewrite Harr in Hcov.
  apply lookup_lt_Some in Hi as Hlt.
  unfold multiPoint. apply forEach_series_defined.
  - intros series Hin. destruct (Hcov series Hin) as (l' & -> & Hlen).
    apply (series_at_defined _ l'); [done | lia].
  - intros k' v' Hk'. apply lookup_singleton_Some in Hk' as [_ <-].
    by destruct l.
Qed.

Lemma points_have_name (p : point) :
  p ∈ prepareChartData data →
  ∃ v, p !! "name" = Some v ∧ (covers ls vs → v ≠ JUndefined).
Proof.
  intros Hp.
  destruct (isArray (vs !! 0)) eqn:Harr.
  - assert (is_Some (p !! "name")) as [v Hpv].
    { apply prepareChartData_elem in Hp as (i & l & _ & ->). rewrite Harr.
      apply forEach_series_is_Some. rewrite lookup_singleton_eq. eauto. }
    exists v. split; [done|]. intros Hcov.
    by apply (multi_points_defined p "name").
  - apply prepareChartData_elem in Hp as (i & l & _ & ->). rewrite Harr.
    exists (label_val l). split; [apply singlePoint_name|].
    intros _. by destruct l.
Qed.

Lemma single_points_fields (p : point) (k : string) :
  isArray (vs !! 0) = false → p ∈ prepareChartData data →
  k ∈ ["name"; "value"; "x"; "y"] →
  ∃ v, p !! k = Some v ∧ (covers ls vs → v ≠ JUndefined).
Proof.
  intros Harr Hp Hk.
  apply prepareChartData_elem in Hp as (i & l & Hi & ->). rewrite Harr.
  apply lookup_lt_Some in Hi as Hlt.
  unfold covers. rewrite Harr.
  rewrite !elem_of_cons, elem_of_nil in Hk.
  destruct Hk as [-> | [-> | [-> | [-> | []]]]].
  - exists (label_val l). split; [apply singlePoint_name|].
    intros _. by destruct l.
  - exists (values_at vs i). split; [apply singlePoint_value|].
    intros Hcov. apply values_at_defined. lia.
  - exists (match l with
            | LNum n => JNum n
            | LStr _ => JNum (Z.of_nat i)
            end).
    split; [reflexivity|]. intros _. by destruct l.
  - exists (values_at vs i). split; [apply singlePoint_y|].
    intros Hcov. apply values_at_defined. lia.
Qed.

Lemma multi_points_series_field (p : point) (s : nat) :
  isArray (vs !! 0) = true → p ∈ prepareChartData data → s < length vs →
  seriesName data s ≠ "__proto__" →
  ∃ v, p !! seriesName data s = Some v ∧ (covers ls vs → v ≠ JUndefined).
Proof.
  intros Harr Hp Hs Hproto.
  assert (is_Some (p !! seriesName data s)) as [v Hpv].
  { apply prepareChartData_elem in Hp as (i & l & _ & ->). rewrite Harr.
    by apply (forEach_series_field data i vs 0). }
  exists v. split; [done|]. intros Hcov.
  by apply (multi_points_defined p (seriesName data s)).
Qed.

Lemma multi_points_no_field (p : point) (k : string) :
  isArray (vs !! 0) = true → p ∈ prepareChartData data →
  k ≠ "name" → k ∉ seriesNames data vs → p !! k = None.
Proof.
  intros Harr Hp Hk Hnames.
  apply prepareChartData_elem in Hp as (i & l & _ & ->). rewrite Harr.
  unfold multiPoint. rewrite forEach_series_other.
  - by apply lookup_singleton_ne.
  - intros j Hj Heq. apply Hnames, seriesNames_elem. eauto.
Qed.
End points.

(** X5. With labels and values present, every field the chart element is
    keyed on is an own field of every point it is given, and that field
    holds a value other than [undefined] whenever values reach as far as
    labels (every series does, on the multi-series path); when they fall
    short the field is there and can hold [undefined].  This is so for a
    single-series payload under any type but boxplot, and for a
    multi-series payload with no series called ["__proto__"] under bar,
    line and timeseries. *)
Theorem chart_reads_defined_fields (data : VisualizationData)
    (ls : list label) (vs : list velem) :
  labels data = Some ls → values data = Some vs →
  type data ≠ "boxplot" →
  (isArray (vs !! 0) = true →
   type data ∈ series_types ∧ "__proto__" ∉ seriesNames data vs) →
  ∃ e, renderChart data (prepareChartData data) (customColors data)
       = Normal e ∧
       ∀ (k : string) (p : point),
         k ∈ data_keys e → p ∈ chart_points e →
         ∃ v, p !! k = Some v ∧ (covers ls vs → v ≠ JUndefined).
Proof.
  intros Hl Hv Hbox Hmulti.
  destruct (renderChart_values_present data (prepareChartData data)
              (customColors data) vs Hv) as [e He].
  exists e. split; [done|]. intros k p Hk Hp.
  assert (Hseries : ∀ (A : Type) (f : nat → A) (g : A → string) (single : A),
            (∀ s, g (f s) = seriesName data s) → g single = "value" →
            p ∈ prepareChartData data →
            k ∈ "name" :: (g <$> (if isArray (vs !! 0)
                                   then imap (λ index _, f index) vs
                                   else [single])) →
            ∃ v, p !! k = Some v ∧ (covers ls vs → v ≠ JUndefined)).
  { intros A f g single Hf Hsingle Hp' Hk'.
    apply elem_of_cons in Hk' as [-> | Hk'];
      [by apply (points_have_name data ls vs Hl Hv)|].
    apply list_elem_of_fmap in Hk' as (child & -> & Hchild).
    destruct (isArray (vs !! 0)) eqn:Harr.
    - apply elem_of_lookup_imap_1 in Hchild as (s & v & -> & Hs).
      apply lookup_lt_Some in Hs.
      rewrite Hf. apply (multi_points_series_field data ls vs Hl Hv); try done.
      intros Heq. apply (proj2 (Hmulti eq_refl)), seriesNames_elem. eauto.
    - apply list_elem_of_singleton in Hchild as ->. rewrite Hsingle.
      apply (single_points_fields data ls vs Hl Hv); try done.
      rewrite !elem_of_cons. tauto. }
  assert (Hsingle : type data ∉ series_types → isArray (vs !! 0) = false).
  { intros Hty. destruct (isArray (vs !! 0)); [|done].
    exfalso. by apply Hty, Hmulti. }
  rewrite series_types_spec in Hsingle.
  unfold renderChart in He. cbv zeta in He. rewrite Hv in He.
  destruct (decide (type data = "bar")) as [Hbar|Hbar].
  { run_completion.
    by apply (Hseries Bar
                (λ index, {| bar_dataKey := seriesName data index;
                             bar_fill := colorAt (customColors data) index;
                             bar_labelList := false |})
                bar_dataKey
                {| bar_dataKey := "value";
                   bar_fill := customColors data !! 0;
                   bar_labelList := true |}). }
  destruct (decide (type data = "line" ∨ type data = "timeseries"))
    as [Hline|Hline].
  { run_completion.
    by apply (Hseries Line
                (λ index, {| line_dataKey := seriesName data index;
                             line_stroke := colorAt (customColors data) index |})
                line_dataKey
                {| line_dataKey := "value";
                   line_stroke := customColors data !! 0 |}). }
  assert (Harr : isArray (vs !! 0) = false) by (apply Hsingle; tauto).
  destruct (decide (type data = "pie")) as [Hpie|Hpie].
  { run_completion.
    apply elem_of_lookup_imap_1 in Hp as (i & item & -> & Hitem).
    assert (Hin : item ∈ prepareChartData data)
      by (apply list_elem_of_lookup; eauto).
    rewrite lookup_insert_ne.
    - apply (single_points_fields data ls vs Hl Hv); try done.
      rewrite !elem_of_cons in *. tauto.
    - rewrite !elem_of_cons, elem_of_nil in Hk.
      destruct Hk as [-> | [-> | []]]; discriminate. }
  destruct (decide (type data = "scatter")) as [Hscatter|Hscatter].
  { run_completion. apply (single_points_fields data ls vs Hl Hv); try done.
    rewrite !elem_of_cons in *. tauto. }
  destruct (decide (type data = "histogram")) as [Hhist|Hhist].
  { run_completion. apply (single_points_fields data ls vs Hl Hv); try done.
    rewrite !elem_of_cons in *. tauto. }
  destruct (decide (type data = "boxplot")) as [Hbp|Hbp]; [done|].
  run_completion. by apply elem_of_nil in Hk.
Qed.

Lemma chart_reads_defined_fields_witness :
  (type line_wind ≠ "boxplot" ∧ type line_wind ∈ series_types ∧
   ("__proto__" ∉ seriesNames line_wind [VArr [1; 2]; VArr [3; 4]]%Z) ∧
   covers [LStr "t1"; LStr "t2"] [VArr [1; 2]; VArr [3; 4]]%Z) ∧
  ∃ e, renderChart line_wind (prepareChartData line_wind)
         (customColors line_wind) = Normal e ∧
       ∀ (k : string) (p : point),
         k ∈ data_keys e → p ∈ chart_points e →
         ∃ v, p !! k = Some v ∧ v ≠ JUndefined.
Proof.
  assert (Hty : type line_wind ∈ series_types)
    by (apply (bool_decide_unpack _); reflexivity).
  assert (Hbox : type line_wind ≠ "boxplot") by discriminate.
  assert (Hproto : "__proto__" ∉ seriesNames line_wind
                                  [VArr [1; 2]; VArr [3; 4]]%Z).
  { apply (bool_decide_eq_false_1
             ("__proto__" ∈ seriesNames line_wind
                              [VArr [1; 2]; VArr [3; 4]]%Z)).
    reflexivity. }
  assert (Hcov : covers [LStr "t1"; LStr "t2"] [VArr [1; 2]; VArr [3; 4]]%Z).
  { intros series Hin. rewrite !elem_of_cons, elem_of_nil in Hin.
    destruct Hin as [-> | [-> | []]]; eexists; (split; [reflexivity|]);
      simpl; lia. }
  split; [by repeat split|].
  destruct (chart_reads_defined_fields line_wind
              [LStr "t1"; LStr "t2"] [VArr [1; 2]; VArr [3; 4]]%Z
              eq_refl eq_refl Hbox (λ _, conj Hty Hproto))
    as (e & He & Hfields).
  exists e. split; [exact He|].
  intros k p Hk Hp. destruct (Hfields k p Hk Hp) as (v & Hpv & Hdef).
  exists v. split; [exact Hpv | exact (Hdef Hcov)].
Defined.

(** X6. A multi-series payload under pie or histogram still yields a
    chart keyed on ["value"] with one point per label, but no point has a
    ["value"] field (unless a series happens to be named so): the chart
    has nothing to draw. *)
Theorem multi_series_value_missing (data : VisualizationData)
    (ls : list label) (vs : list velem) :
  labels data = Some ls → values data = Some vs →
  isArray (vs !! 0) = true →
  type data = "pie" ∨ type data = "histogram" →
  "value" ∉ seriesNames data vs →
  ∃ e, renderChart data (prepareChartData data) (customColors data)
       = Normal e ∧
       "value" ∈ data_keys e ∧
       length (chart_points e) = length ls ∧
       ∀ p, p ∈ chart_points e → p !! "value" = None.
Proof.
  intros Hl Hv Harr Hty Hnames.
  assert (Hnone : ∀ p, p ∈ prepareChartData data → p !! "value" = None).
  { intros p Hp.
    by apply (multi_points_no_field data ls vs Hl Hv p "value"). }
  assert (Hlen := prepareChartData_length data ls vs Hl Hv).
  destruct Hty as [Hty | Hty].
  - rewrite renderChart_pie by done. eexists. split; [done|]. simpl.
    split; [rewrite !elem_of_cons; tauto|].
    split; [by rewrite length_imap|].
    intros p Hp. apply elem_of_lookup_imap_1 in Hp as (i & item & -> & Hitem).
    rewrite lookup_insert_ne by discriminate.
    apply Hnone, list_elem_of_lookup. eauto.
  - unfold renderChart. cbv zeta. rewrite Hty. simpl.
    eexists. split; [done|]. simpl.
    split; [rewrite !elem_of_cons; tauto|]. by split.
Qed.

Lemma multi_series_value_missing_witness :
  ("value" ∉ seriesNames histogram_two_series [VArr [1; 2]; VArr [3; 4]]%Z) ∧
  ∃ e, renderChart histogram_two_series
         (prepareChartData histogram_two_series)
         (customColors histogram_two_series) = Normal e ∧
       "value" ∈ data_keys e ∧
       length (chart_points e) = 2 ∧
       ∀ p, p ∈ chart_points e → p !! "value" = None.
Proof.
  assert (Hnames : "value" ∉ seriesNames histogram_two_series
                                [VArr [1; 2]; VArr [3; 4]]%Z).
  { apply (bool_decide_eq_false_1
             ("value" ∈ seriesNames histogram_two_series
                          [VArr [1; 2]; VArr [3; 4]]%Z)).
    reflexivity. }
  split; [exact Hnames|].
  exact (multi_series_value_missing histogram_two_series
           [LStr "a"; LStr "b"] [VArr [1; 2]; VArr [3; 4]]%Z
           eq_refl eq_refl eq_refl (or_intror eq_refl) Hnames).
Defined.

(** ** Series colours *)

(** X7. Under bar, line and timeseries a multi-series payload gets one
    [Bar] or [Line] per series, and with a non-empty palette (the supplied
    one, or the built-in one when none is supplied) the colour of series
    [s] is the palette entry at [s mod k], [k] the palette length. *)
Theorem series_colors_cycle (data : VisualizationData) (vs : list velem) :
  type data ∈ series_types → values data = Some vs →
  isArray (vs !! 0) = true → customColors data ≠ [] →
  ∃ e, renderChart data (prepareChartData data) (customColors data)
       = Normal e ∧
       length (series_fills e) = length vs ∧
       ∀ s, s < length vs →
         ∃ c, series_fills e !! s = Some (Some c) ∧
              customColors data !! (s mod length (customColors data))
              = Some c.
Proof.
  intros Hty Hv Harr Hne.
  apply series_types_spec in Hty.
  assert (Hcol : ∀ s, ∃ c, colorAt (customColors data) s = Some c ∧
            customColors data !! (s mod length (customColors data)) = Some c).
  { intros s. destruct (colorAt_cyclic (customColors data) s Hne)
      as [Heq [c Hc]].
    exists c. split; [done|]. by rewrite <- Heq. }
  unfold renderChart. cbv zeta. rewrite Hv.
  next_case Hbar.
  { run_completion. rewrite Harr. eexists. split; [done|]. simpl.
    split; [by rewrite length_fmap, length_imap|].
    intros s Hs. destruct (Hcol s) as (c & Hc & Hpal).
    exists c. split; [|done].
    destruct (lookup_lt_is_Some_2 vs s Hs) as [v Hvs].
    by rewrite list_lookup_fmap, list_lookup_imap, Hvs; simpl; rewrite Hc. }
  next_case Hline; [|tauto].
  run_completion. rewrite Harr. eexists. split; [done|]. simpl.
  split; [by rewrite length_fmap, length_imap|].
  intros s Hs. destruct (Hcol s) as (c & Hc & Hpal).
  exists c. split; [|done].
  destruct (lookup_lt_is_Some_2 vs s Hs) as [v Hvs].
  by rewrite list_lookup_fmap, list_lookup_imap, Hvs; simpl; rewrite Hc.
Qed.

Lemma series_colors_cycle_witness :
  (type bar_two_colors ∈ series_types ∧ customColors bar_two_colors ≠ []) ∧
  ∃ e, renderChart bar_two_colors (prepareChartData bar_two_colors)
         (customColors bar_two_colors) = Normal e ∧
       length (series_fills e) = 3 ∧
       ∀ s, s < 3 →
         ∃ c, series_fills e !! s = Some (Some c) ∧
              ["red"; "blue"] !! (s mod 2) = Some c.
Proof.
  assert (Hty : type bar_two_colors ∈ series_types)
    by (apply (bool_decide_unpack _); reflexivity).
  assert (Hne : customColors bar_two_colors ≠ []) by discriminate.
  split; [by split|].
  exact (series_colors_cycle bar_two_colors [VArr [1]; VArr [2]; VArr [3]]%Z
           Hty eq_refl eq_refl Hne).
Defined.

(** ** Boxplots *)



(** * The message component *)

(** ** Completions *)

Lemma completion_cases {A : Type} (m : completion A) :
  (∃ a, m = Normal a) ∨ fails m.
Proof. destruct m as [a|e]; [left | right]; by eexists. Qed.

Lemma fails_Normal {A : Type} (a : A) : ¬ fails (Normal a).
Proof. by intros [e ?]. Qed.

Lemma bind_Throw_inv {A B : Type} (m : completion A) (f : A → completion B)
    (e : js_error) :
  m ≫= f = Throw e → m = Throw e ∨ ∃ a, m = Normal a ∧ f a = Throw e.
Proof.
  destruct m as [a|e']; intros H; [right; eauto|].
  left. cbv in H. by injection H as ->.
Qed.

Lemma bind_Throw_iff {A B : Type} (m : completion A) (f : A → completion B)
    (e : js_error) :
  m ≫= f = Throw e ↔ m = Throw e ∨ ∃ a, m = Normal a ∧ f a = Throw e.
Proof.
  split; [apply bind_Throw_inv|].
  intros [-> | (a & -> & Ha)]; done.
Qed.

Lemma fmap_Throw_iff {A B : Type} (g : A → B) (m : completion A)
    (e : js_error) :
  g <$> m = Throw e ↔ m = Throw e.
Proof.
  destruct m as [a|e']; split; intros H; try done;
    cbv in H |- *; by injection H as ->.
Qed.

Lemma fails_bind {A B : Type} (m : completion A) (f : A → completion B) :
  fails (m ≫= f) ↔ fails m ∨ ∃ a, m = Normal a ∧ fails (f a).
Proof.
  unfold fails. split.
  - intros [e He]. apply bind_Throw_inv in He as [? | (a & ? & ?)]; eauto.
  - intros [[e ->] | (a & -> & [e He])]; by exists e.
Qed.

Lemma fails_fmap {A B : Type} (g : A → B) (m : completion A) :
  fails (g <$> m) ↔ fails m.
Proof.
  unfold fails. split; intros [e He]; exists e; by apply (fmap_Throw_iff g).
Qed.

(** ** Completions of list traversals *)

Lemma mapM_Normal {A B : Type} (f : A → completion B) (g : A → B)
    (l : list A) :
  (∀ x, x ∈ l → f x = Normal (g x)) → mapM f l = Normal (g <$> l).
Proof.
  induction l as [|x l IH]; intros Hf; [done|].
  simpl. rewrite (Hf x) by apply list_elem_of_here.
  unfold mbind at 1. simpl.
  rewrite IH; [done|]. intros y Hy. apply Hf. by apply list_elem_of_further.
Qed.

(** A traversal that returns has gone through every element. *)
Lemma mapM_Normal_inv {A B : Type} (f : A → completion B) (l : list A) :
  ∀ k, mapM f l = Normal k → Forall2 (λ x y, f x = Normal y) l k.
Proof.
  induction l as [|x l IH]; intros k Hk.
  - simpl in Hk. injection Hk as <-. constructor.
  - simpl in Hk. destruct (f x) as [b|e] eqn:Hx; [|done].
    unfold mbind at 1 in Hk. simpl in Hk.
    destruct (mapM f l) as [k'|e] eqn:Hl; [|done].
    injection Hk as <-. constructor; [done | by apply IH].
Qed.

Lemma mapM_Throw_inv {A B : Type} (f : A → completion B) (l : list A)
    (e : js_error) :
  mapM f l = Throw e → ∃ x, x ∈ l ∧ f x = Throw e.
Proof.
  induction l as [|y l IH]; [done|].
  simpl. destruct (f y) as [b|e'] eqn:Hy.
  - unfold mbind at 1. simpl.
    destruct (mapM f l) as [k|e'] eqn:Hl; [done|].
    intros [= ->]. destruct IH as (x & Hx & Hfx); [done|].
    exists x. split; [by apply list_elem_of_further | done].
  - intros [= ->]. exists y. split; [apply list_elem_of_here | done].
Qed.

(** A traversal fails exactly when it meets an element on which the
    function fails. *)
Lemma fails_mapM {A B : Type} (f : A → completion B) (l : list A) :
  fails (mapM f l) ↔ ∃ x, x ∈ l ∧ fails (f x).
Proof.
  split.
  - intros [e He]. apply mapM_Throw_inv in He as (x & Hx & Hfx).
    exists x. split; [done | by exists e].
  - intros (x & Hx & Hfx).
    induction l as [|y l IH]; [by apply elem_of_nil in Hx|].
    simpl. apply fails_bind.
    destruct (completion_cases (f y)) as [[b Hb] | Hy]; [|by left].
    right. exists b. split; [done|].
    apply elem_of_cons in Hx as [-> | Hx].
    + exfalso. rewrite Hb in Hfx. by apply fails_Normal in Hfx.
    + apply fails_bind. left. by apply IH.
Qed.

(** When the function can only throw a [TypeError], so can the
    traversal. *)
Lemma mapM_TypeError {A B : Type} (f : A → completion B) (l : list A) :
  (∀ x e, f x = Throw e → e = TypeError) →
  (∀ e, mapM f l = Throw e → e = TypeError) ∧
  (mapM f l = Throw TypeError ↔ ∃ x, x ∈ l ∧ f x = Throw TypeError).
Proof.
  intros Hf.
  assert (Honly : ∀ e, mapM f l = Throw e → e = TypeError).
  { intros e He. apply mapM_Throw_inv in He as (x & _ & Hx).
    by apply Hf in Hx. }
  split; [exact Honly|]. split; [apply mapM_Throw_inv|].
  intros (x & Hx & Hfx).
  destruct (proj2 (fails_mapM f l)) as [e He].
  { exists x. split; [done | by exists TypeError]. }
  by rewrite He, (Honly e He).
Qed.

(** ** Reading rows and columns *)

Lemma objectValues_Throw (row : json) (e : js_error) :
  objectValues row = Throw e ↔ e = TypeError ∧ row = JsNull.
Proof. destruct row; simpl; settle_throw. Qed.

Lemma objectKeys_Throw (j : json) (e : js_error) :
  objectKeys j = Throw e ↔ e = TypeError ∧ j = JsNull.
Proof. destruct j; simpl; settle_throw. Qed.

Lemma columnText_Throw (col : json) (e : js_error) :
  columnText col = Throw e ↔ e = TypeError ∧ col = JsNull.
Proof.
  destruct col as [| | | |items|fields]; simpl; settle_throw.
Qed.

Lemma cellText_Throw (val : json) (e : js_error) :
  cellText val = Throw e ↔ e = TypeError ∧ String_throws val = true.
Proof.
  destruct val as [| | | |items|fields]; simpl;
    try match goal with
        | |- context [if ?b then _ else _] => destruct b
        end;
    settle_throw.
Qed.

Lemma cellText_Normal (val : json) :
  String_throws val = false → cellText val = Normal (cellShown val).
Proof.
  destruct val as [| | | |items|fields]; simpl; try done; by intros ->.
Qed.

Lemma rowCells_Throw (row : json) (e : js_error) :
  rowCells row = Throw e ↔ e = TypeError ∧ bad_row row.
Proof.
  unfold rowCells, bad_row. rewrite bind_Throw_iff, objectValues_Throw.
  split.
  - intros [[-> ->] | (vals & Hvals & Hcells)]; [by split; [|left]|].
    apply mapM_Throw_inv in Hcells as (val & Hval & Hthrow).
    apply cellText_Throw in Hthrow as [-> Hthrow].
    split; [done|]. right. eauto.
  - intros [-> [-> | (vals & val & Hvals & Hval & Hthrow)]]; [by left|].
    right. exists vals. split; [done|].
    apply (mapM_TypeError cellText vals).
    + intros x e Hx. by apply cellText_Throw in Hx as [-> _].
    + exists val. split; [done|]. by apply cellText_Throw.
Qed.

(** ** The tabs *)

Lemma tabValues_elem (message : Message) (k : string) :
  k ∈ tabValues message ↔
  (k = "sql" ∧ has_sql message = true) ∨
  (k = "tables" ∧ nonempty_list (tables message) = true) ∨
  (k = "columns" ∧ nonempty_list (columns message) = true) ∨
  (k = "data" ∧ opt_truthy (msg_data message) = true).
Proof.
  unfold tabValues. rewrite !elem_of_app.
  destruct (has_sql message), (nonempty_list (tables message)),
    (nonempty_list (columns message)), (opt_truthy (msg_data message));
    rewrite ?list_elem_of_singleton, ?elem_of_nil; intuition congruence.
Qed.

Lemma nonempty_list_spec (o : option (list json)) :
  nonempty_list o = true ↔ ∃ x l, o = Some (x :: l).
Proof.
  destruct o as [[|x l]|]; simpl.
  - split; [done | intros (? & ? & ?); done].
  - split; [eauto | done].
  - split; [done | intros (? & ? & ?); done].
Qed.

(** X11. When the card with the tabs is shown, the tab it opens by
    default is one of the tabs it renders, except when there is no SQL and
    [tables] is an empty array, or no SQL, no [tables] and [columns] is an
    empty array: then the default names a tab that is not there. *)
Theorem default_tab_rendered (message : Message) :
  tabsShown message = true →
  defaultTab message ∈ tabValues message ↔
  has_sql message = true ∨
  (tables message ≠ Some [] ∧
   (tables message = None → columns message ≠ Some [])).
Proof.
  intros Hshown. rewrite tabValues_elem.
  unfold tabsShown, defaultTab, has_list in *.
  rewrite !nonempty_list_spec.
  destruct (has_sql message); simpl in *.
  { split; [by left|]. intros _. by left. }
  destruct (tables message) as [[|t ts]|]; simpl in *.
  - split; [|intros [? | [? _]]; done].
    intros [[? _] | [[_ (? & ? & ?)] | [[? _] | [? _]]]]; done.
  - split; [intros _; right; split; done|]. intros _.
    right. left. eauto.
  - destruct (columns message) as [[|c cs]|]; simpl in *.
    + split; [|intros [? | [_ Hc]]; [done | by destruct Hc]].
      intros [[? _] | [[? _] | [[_ (? & ? & ?)] | [? _]]]]; done.
    + split; [intros _; right; split; done|]. intros _.
      right. right. left. eauto.
    + split; [intros _; right; split; done|]. intros _.
      right. right. right. done.
Qed.

Lemma default_tab_rendered_witness :
  tabsShown message_empty_tables = true ∧
  (defaultTab message_empty_tables ∈ tabValues message_empty_tables ↔
   false = true ∨
   (Some [] ≠ Some ([] : list json) ∧
    (Some [] = (None : option (list json)) →
     (None : option (list json)) ≠ Some []))) ∧
  defaultTab message_empty_tables = "tables" ∧
  tabValues message_empty_tables = ["data"].
Proof.
  split; [reflexivity|].
  split; [|split; reflexivity].
  exact (default_tab_rendered message_empty_tables eq_refl).
Defined.

(** ** The data tab *)

Lemma dataView_rows (first : json) (rest : list json) :
  typeof_object first = true →
  dataView (JsArray (first :: rest)) =
  header ← objectKeys first;
  rows ← mapM rowCells (take 10 (first :: rest));
  mret (DataTable header rows).
Proof. intros H. unfold dataView. by rewrite H. Qed.

(** X12. When the data is a non-empty array whose first ten rows are all
    objects, none with a value that [String] rejects, the tab shows a
    table: the header is the keys of the first row alone, there are
    [min(10, n)] body rows, row [i] has one cell per field of row [i]
    (with ["-"] for [null]), and the note giving the total is absent
    exactly when every row is shown. *)
Theorem data_table_rows (rows : list json) :
  rows ≠ [] →
  (∀ row, row ∈ take 10 rows →
     ∃ fields, row = JsObject fields ∧
               ∀ val, val ∈ fields.*2 → String_throws val = false) →
  ∃ header body,
    dataView (JsArray rows) = Normal (DataTable header body) ∧
    (∀ fields, rows !! 0 = Some (JsObject fields) → header = fields.*1) ∧
    length body = length rows `min` 10 ∧
    (∀ i fields, i < 10 → rows !! i = Some (JsObject fields) →
       body !! i = Some (cellShown <$> fields.*2)) ∧
    (truncationNote (JsArray rows) = None ↔ length body = length rows) ∧
    (∀ n, truncationNote (JsArray rows) = Some n → n = length rows).
Proof.
  intros Hne Hobj.
  destruct rows as [|first rest]; [done|].
  destruct (Hobj first) as (ffields & -> & _); [apply list_elem_of_here|].
  set (rows := JsObject ffields :: rest) in *.
  assert (Hlen0 : rows !! 0 = Some (JsObject ffields)) by done.
  assert (Hmap : mapM rowCells (take 10 rows)
                 = Normal ((λ row, match row with
                                   | JsObject fields => cellShown <$> fields.*2
                                   | _ => []
                                   end) <$> take 10 rows)).
  { apply mapM_Normal. intros row Hrow.
    destruct (Hobj row Hrow) as (fields & -> & Hvals).
    unfold rowCells. simpl.
    apply mapM_Normal. intros val Hval. by apply cellText_Normal, Hvals. }
  eexists _, _. split.
  { unfold rows in *. rewrite dataView_rows by done.
    rewrite Hmap. reflexivity. }
  fold rows.
  split.
  { intros fields Hf. rewrite Hlen0 in Hf. by injection Hf as <-. }
  split; [rewrite length_fmap, length_take; lia|].
  split.
  { intros i fields Hi Hrow.
    by rewrite list_lookup_fmap, lookup_take_lt, Hrow. }
  split.
  - rewrite length_fmap, length_take. simpl truncationNote.
    unfold rows. cbn [length].
    case_bool_decide; (split; [intros; first [done | lia] |]);
      intros; first [done | exfalso; lia].
  - intros n. simpl truncationNote. unfold rows. cbn [length].
    case_bool_decide; by intros [= <-].
Qed.

Lemma data_table_rows_witness :
  rows_12 ≠ [] ∧
  ∃ header body,
    dataView (JsArray rows_12) = Normal (DataTable header body) ∧
    header = ["n"; "v"] ∧
    length body = 10 ∧
    body !! 3 = Some [StringOf (JsNumber 3); Literal "-"] ∧
    truncationNote (JsArray rows_12) = Some 12.
Proof.
  assert (Hne : rows_12 ≠ []) by discriminate.
  assert (Hobj : ∀ row, row ∈ take 10 rows_12 →
            ∃ fields, row = JsObject fields ∧
                      ∀ val, val ∈ fields.*2 → String_throws val = false).
  { intros row Hrow. unfold rows_12 in Hrow. rewrite <- fmap_take in Hrow.
    apply list_elem_of_fmap in Hrow as (n & -> & _).
    eexists. split; [reflexivity|].
    intros val Hval. simpl in Hval.
    rewrite !elem_of_cons, elem_of_nil in Hval.
    destruct Hval as [-> | [-> | []]]; reflexivity. }
  destruct (data_table_rows rows_12 Hne Hobj)
    as (header & body & Hview & Hheader & Hlen & Hrow & _ & _).
  split; [exact Hne|].
  exists header, body. split; [exact Hview|].
  split; [exact (Hheader _ eq_refl)|].
  split; [exact Hlen|].
  split; [|reflexivity].
  apply (Hrow 3 [("n", JsNumber 3); ("v", JsNull)]); [lia | reflexivity].
Defined.

Lemma dataView_Throw (d : json) (e : js_error) :
  dataView d = Throw e ↔
  e = TypeError ∧
  ∃ first rest, d = JsArray (first :: rest) ∧
    typeof_object first = true ∧
    ∃ row, row ∈ take 10 (first :: rest) ∧ bad_row row.
Proof.
  split.
  - destruct d as [| | | |[|first rest]|fields]; try done.
    destruct (typeof_object first) eqn:Hobj; [|by unfold dataView; rewrite Hobj].
    rewrite dataView_rows by done. intros Hthrow.
    apply bind_Throw_inv in Hthrow as [Hkeys | (header & _ & Hthrow)].
    { apply objectKeys_Throw in Hkeys as [-> ->]. split; [done|].
      exists JsNull, rest. split; [done|]. split; [done|].
      exists JsNull. split; [apply list_elem_of_here | by left]. }
    apply bind_Throw_inv in Hthrow as [Hbody | (body & _ & ?)]; [|done].
    apply mapM_Throw_inv in Hbody as (row & Hrow & Hrowthrow).
    apply rowCells_Throw in Hrowthrow as [-> Hbad]. split; [done|].
    exists first, rest. eauto.
  - intros (-> & first & rest & -> & Hobj & row & Hrow & Hbad).
    rewrite dataView_rows by done.
    assert (Hrows : mapM rowCells (take 10 (first :: rest))
                    = Throw TypeError).
    { apply (mapM_TypeError rowCells).
      - intros x e Hx. by apply rowCells_Throw in Hx as [-> _].
      - exists row. split; [done|]. by apply rowCells_Throw. }
    rewrite Hrows.
    destruct (objectKeys first) as [header|e] eqn:Hkeys; [done|].
    by apply objectKeys_Throw in Hkeys as [-> _].
Qed.

(** X13. Rendering the data tab can only throw a [TypeError], and it
    does so exactly when the data is a non-empty array that starts with an
    object, an array or [null] and, among its first ten rows, has a
    [null] ([typeof null] is ['object'], and neither [Object.keys] nor
    [Object.values] accepts [null]) or a row with a value that [String]
    rejects (an object with its own [toString], or an array holding
    one). *)
Theorem dataView_throws_iff (d : json) :
  (∀ e, dataView d = Throw e → e = TypeError) ∧
  (dataView d = Throw TypeError ↔
   ∃ first rest, d = JsArray (first :: rest) ∧
     typeof_object first = true ∧
     ∃ row, row ∈ take 10 (first :: rest) ∧
       (row = JsNull ∨
        ∃ vals val, objectValues row = Normal vals ∧ val ∈ vals ∧
                    String_throws val = true)).
Proof.
  split.
  - intros e He. by apply dataView_Throw in He as [-> _].
  - rewrite dataView_Throw. unfold bad_row. split; [by intros [_ ?] | done].
Qed.

(** A cell that [String] rejects, and the table that throws on it. *)
Example dataView_toString_cell :
  String_throws (JsObject [("toString", JsNumber 0)]) = true ∧
  dataView (JsArray [JsObject [("a", JsObject [("toString", JsNumber 0)])]])
  = Throw TypeError ∧
  dataView (JsArray [JsObject [("a", JsArray [JsNull; JsObject []])]])
  = Normal (DataTable ["a"] [[StringOf (JsArray [JsNull; JsObject []])]]).
Proof. repeat split; reflexivity. Qed.

(** ** What makes a message fail to render *)

Lemma fails_bind_later {A B : Type} (m : completion A) (f : A → completion B) :
  (∀ a, m = Normal a → fails (f a)) → fails (m ≫= f).
Proof.
  intros Hf. apply fails_bind.
  destruct (completion_cases m) as [[a Ha] | Hm]; [|by left].
  right. exists a. split; [done | by apply Hf].
Qed.

Lemma child_fails (t : text) :
  fails (child t) ↔ ∃ j, t = Raw j ∧ valid_child j = false.
Proof.
  unfold fails. destruct t as [s|j n|j|j]; simpl;
    try (split; [by intros [e ?] | by intros (j' & ? & _)]).
  destruct (valid_child j) eqn:Hj.
  - split; [by intros [e ?] | intros (j' & [= <-] & ?); congruence].
  - split; [eauto | by exists InvalidChild].
Qed.

(** The column names of the tabs card. *)
Lemma columns_fail_iff (message : Message) :
  fails (if nonempty_list (columns message)
         then Some <$> mapM columnText (default [] (columns message))
         else mret None) ↔
  ∃ cols, columns message = Some cols ∧ JsNull ∈ cols.
Proof.
  destruct (columns message) as [cols|]; simpl.
  - case_bool_decide as Hlen.
    + rewrite fails_fmap, fails_mapM. split.
      * intros (col & Hcol & [e He]).
        apply columnText_Throw in He as [_ ->]. eauto.
      * intros (cols' & [= <-] & Hnull). exists JsNull.
        split; [done | by exists TypeError].
    + split; [by intros [e ?]|]. intros (cols' & [= <-] & Hnull).
      destruct cols; [by apply elem_of_nil in Hnull | simpl in Hlen; lia].
  - split; [by intros [e ?] | by intros (? & ? & _)].
Qed.

Lemma dataView_Throw_truthy (d : json) (e : js_error) :
  dataView d = Throw e → json_truthy d = true.
Proof. by destruct d as [| | | |[|first rest]|fields]. Qed.

Lemma data_fails_iff (message : Message) :
  fails (match msg_data message with
         | Some d =>
             if json_truthy d
             then view ← dataView d; mret (Some (view, truncationNote d))
             else mret None
         | None => mret None
         end) ↔
  ∃ d, msg_data message = Some d ∧ dataView d = Throw TypeError.
Proof.
  destruct (msg_data message) as [d|].
  - split.
    + destruct (json_truthy d); [|by intros [e ?]].
      intros Hf. apply fails_bind in Hf as [[e He] | (view & _ & [e ?])];
        [|done].
      exists d. split; [done|].
      by apply dataView_Throw in He as He'; destruct He' as [-> _].
    + intros (d' & [= <-] & Hview).
      rewrite (dataView_Throw_truthy d _ Hview), Hview. by exists TypeError.
  - split; [by intros [e ?] | by intros (? & ? & _)].
Qed.

Lemma tabsCard_fails_iff (message : Message) :
  fails (tabsCard message) ↔
  (∃ cols, columns message = Some cols ∧ JsNull ∈ cols) ∨
  (∃ d, msg_data message = Some d ∧ dataView d = Throw TypeError).
Proof.
  unfold tabsCard. rewrite <- columns_fail_iff, <- data_fails_iff. split.
  - intros Hf. apply fails_bind in Hf as [Hcols | (c & _ & Hrest)];
      [by left|].
    apply fails_bind in Hrest as [Hdat | (dat & _ & [e ?])]; [by right | done].
  - intros [Hcols | Hdat].
    + apply fails_bind. by left.
    + apply fails_bind_later. intros c _. apply fails_bind. by left.
Qed.

(** The card records the column names it was built from. *)
Lemma tabsCard_columns (message : Message) (card : TabsCard) :
  tabsCard message = Normal card →
  (if nonempty_list (columns message)
   then Some <$> mapM columnText (default [] (columns message))
   else mret None) = Normal (tabs_columns card).
Proof.
  unfold tabsCard. intros H.
  destruct (if nonempty_list (columns message)
            then Some <$> mapM columnText (default [] (columns message))
            else mret None) as [c|e]; [|done].
  unfold mbind at 1 in H. simpl in H.
  match type of H with
  | ?m ≫= _ = _ => destruct m as [dat|e]; [|done]
  end.
  by injection H as <-.
Qed.

(** The names React is handed as children of the columns panel, and
    when one of them is refused. *)
Lemma column_children_fail_iff (message : Message) (card : TabsCard) :
  tabsCard message = Normal card →
  fails (mapM child (default [] (tabs_columns card))) ↔
  ∃ cols col j, columns message = Some cols ∧ col ∈ cols ∧
                columnText col = Normal (Raw j) ∧ valid_child j = false.
Proof.
  intros Hcard. apply tabsCard_columns in Hcard.
  rewrite fails_mapM.
  destruct (columns message) as [cols|]; simpl in Hcard.
  - case_bool_decide as Hlen.
    + destruct (mapM columnText cols) as [texts|e] eqn:Htexts; [|done].
      injection Hcard as <-. simpl.
      apply mapM_Normal_inv in Htexts. split.
      * intros (t & Ht & Hfail).
        apply child_fails in Hfail as (j & -> & Hj).
        apply list_elem_of_lookup in Ht as [i Hi].
        destruct (Forall2_lookup_r _ _ _ _ _ Htexts Hi) as (col & Hcol & Hname).
        exists cols, col, j. split; [done|].
        split; [apply list_elem_of_lookup; eauto | done].
      * intros (cols' & col & j & [= <-] & Hcol & Hname & Hj).
        apply list_elem_of_lookup in Hcol as [i Hi].
        destruct (Forall2_lookup_l _ _ _ _ _ Htexts Hi) as (t & Ht & Hname').
        exists (Raw j). split.
        -- apply list_elem_of_lookup. exists i. congruence.
        -- apply child_fails. eauto.
    + injection Hcard as <-. simpl. split.
      * intros (t & Ht & _). by apply elem_of_nil in Ht.
      * intros (cols' & col & j & [= <-] & Hcol & _).
        destruct cols; [by apply elem_of_nil in Hcol | simpl in Hlen; lia].
  - injection Hcard as <-. simpl. split.
    + intros (t & Ht & _). by apply elem_of_nil in Ht.
    + by intros (? & ? & ? & ? & _).
Qed.

Lemma Visualization_cases (v : VisualizationData) :
  (Visualization (Some v) = Throw TypeError ∧
   values v = None ∧ type v ∈ series_types) ∨
  (∃ card, Visualization (Some v) = Normal (Some card)).
Proof.
  destruct (values v) as [vs|] eqn:Hv.
  - right.
    destruct (renderChart_values_present v (prepareChartData v)
                (customColors v) vs Hv) as [e He].
    eexists. by apply Visualization_card.
  - destruct (decide (type v ∈ series_types)) as [Hin | Hout].
    + left. split; [by apply Visualization_throws | done].
    + right.
      destruct (renderChart_other_types v (prepareChartData v)
                  (customColors v) Hout) as [e He].
      eexists. by apply Visualization_card.
Qed.

Lemma chart_fails_iff (message : Message) :
  fails (match visualization message with
         | Some v => Some <$> Visualization (Some v)
         | None => mret None
         end) ↔
  ∃ v, visualization message = Some v ∧
       values v = None ∧ type v ∈ series_types.
Proof.
  destruct (visualization message) as [v|].
  - rewrite fails_fmap. split.
    + intros [e He].
      destruct (Visualization_cases v) as [(_ & ? & ?) | [card Hcard]];
        [eauto | congruence].
    + intros (v' & [= <-] & Hv & Hty). exists TypeError.
      by apply Visualization_throws.
  - split; [by intros [e ?] | by intros (? & ? & _)].
Qed.

(** The tabs card is there whenever the message has columns. *)
Lemma tabsShown_columns (message : Message) (cols : list json) :
  columns message = Some cols → tabsShown message = true.
Proof. intros H. unfold tabsShown. rewrite H. simpl. by rewrite !orb_true_r. Qed.

Lemma tabs_fail_iff (message : Message) :
  fails (if tabsShown message
         then Some <$> tabsCard message
         else mret None) ↔
  (∃ cols, columns message = Some cols ∧ JsNull ∈ cols) ∨
  (∃ d, msg_data message = Some d ∧ dataView d = Throw TypeError).
Proof.
  rewrite <- tabsCard_fails_iff.
  destruct (tabsShown message) eqn:Hshown; [apply fails_fmap|].
  split; [by intros [e ?]|]. intros Hf. exfalso.
  apply tabsCard_fails_iff in Hf as [(cols & Hcols & _) | (d & Hd & Hview)].
  - by rewrite (tabsShown_columns message cols Hcols) in Hshown.
  - unfold tabsShown in Hshown. rewrite Hd in Hshown. simpl in Hshown.
    rewrite (dataView_Throw_truthy d _ Hview) in Hshown.
    by rewrite !orb_true_r in Hshown.
Qed.

(** X14. Leaving aside the components that are not in the sources (the
    tabs, the card, the icons) and the charting library, a message fails
    to render in exactly five cases.  Two are thrown by the function body:
    [columns] contain a [null], or the data tab throws.  Three come up as
    React goes down the tree: the text is an object (or an array holding
    one), which React refuses as a child; the chart payload has no values
    under a bar, line or timeseries type; or, where the tabs component
    mounts the columns panel, a column has a truthy [name] that React
    refuses as a child. *)
Theorem ChatMessage_throws_iff (mounted : string → bool) (message : Message) :
  fails (ChatMessage mounted message) ↔
  (∃ cols, columns message = Some cols ∧ JsNull ∈ cols) ∨
  (∃ d, msg_data message = Some d ∧ dataView d = Throw TypeError) ∨
  (∃ j, content message = Raw j ∧ valid_child j = false) ∨
  (∃ v, visualization message = Some v ∧
        values v = None ∧ type v ∈ series_types) ∨
  (mounted "columns" = true ∧
   ∃ cols col j, columns message = Some cols ∧ col ∈ cols ∧
                 columnText col = Normal (Raw j) ∧ valid_child j = false).
Proof.
  unfold ChatMessage. split.
  - intros Hf.
    apply fails_bind in Hf as [Htabs | (tabs & Htabs & Hf)].
    { apply tabs_fail_iff in Htabs. tauto. }
    apply fails_bind in Hf as [Htext | (text & _ & Hf)].
    { apply child_fails in Htext. tauto. }
    apply fails_bind in Hf as [Hchart | (chart & _ & Hf)].
    { apply chart_fails_iff in Hchart. tauto. }
    apply fails_bind in Hf as [Hcols | (names & _ & [e ?])]; [|done].
    do 4 right.
    destruct tabs as [card|]; [|by destruct Hcols].
    destruct (mounted "columns"); [|by destruct Hcols].
    split; [done|].
    destruct (tabsShown message); [|done].
    destruct (tabsCard message) as [card'|e] eqn:Hcard; [|done].
    injection Htabs as <-.
    by apply (column_children_fail_iff message card').
  - intros [Hcols | [Hdat | [Htext | [Hchart | [Hmounted Hname]]]]].
    + apply fails_bind. left. apply tabs_fail_iff. by left.
    + apply fails_bind. left. apply tabs_fail_iff. by right.
    + apply fails_bind_later. intros tabs _.
      apply fails_bind. left. by apply child_fails.
    + apply fails_bind_later. intros tabs _.
      apply fails_bind_later. intros text _.
      apply fails_bind. left. by apply chart_fails_iff.
    + apply fails_bind_later. intros tabs Htabs.
      apply fails_bind_later. intros text _.
      apply fails_bind_later. intros chart _.
      apply fails_bind. left.
      destruct Hname as (cols & col & j & Hcols & Hname).
      rewrite (tabsShown_columns message cols Hcols) in Htabs.
      destruct (tabsCard message) as [card|e] eqn:Hcard; [|done].
      injection Htabs as <-. rewrite Hmounted.
      apply (column_children_fail_iff message card Hcard). eauto 10.
Qed.

(** A reply whose text is an object, as the chat stores it: the function
    body returns, and React refuses the child. *)
Example ChatMessage_object_text :
  ∀ mounted,
    ChatMessage mounted
      {| msg_id := "1"; msg_type := "assistant";
         content := Raw (JsObject [("a", JsNumber 1)]);
         timestamp := 0; visualization := None; tables := None;
         columns := None; sql_query := None; msg_data := None |}
    = Throw InvalidChild.
Proof. reflexivity. Qed.

(** * The chat that draws its charts itself *)

(** ** When the block is drawn *)

Lemma as_array_prop (v : json) (k : string) (items : list json) :
  as_array (js_prop_opt (Some v) k) = Some items ↔
  ∃ fields, v = JsObject fields ∧ assoc k fields = Some (JsArray items).
Proof.
  split.
  - destruct v as [| | | |l|fields]; simpl; try done.
    destruct (assoc k fields) as [[| | | |l|fs]|] eqn:Hk; simpl; try done.
    intros [= <-]. eauto.
  - intros (fields & -> & Hk). simpl. by rewrite Hk.
Qed.

Lemma chartBlock_shown_iff (o : option json) :
  is_Some (Inline.chartBlock o) ↔
  ∃ fields ls vs, o = Some (JsObject fields) ∧
    assoc "labels" fields = Some (JsArray ls) ∧
    assoc "values" fields = Some (JsArray vs) ∧ ls ≠ [] ∧ vs ≠ [].
Proof.
  split.
  - destruct o as [v|]; [|by intros [? ?]].
    unfold Inline.chartBlock. destruct (json_truthy v); [|by intros [? ?]].
    destruct (as_array (js_prop_opt (Some v) "labels")) as [ls|] eqn:Hls;
      [|by intros [? ?]].
    destruct (as_array (js_prop_opt (Some v) "values")) as [vs|] eqn:Hvs;
      [|by intros [? ?]].
    apply as_array_prop in Hls as (fields & -> & Hls).
    apply as_array_prop in Hvs as (fields' & [= <-] & Hvs).
    destruct ls as [|l ls]; [by intros [? ?]|].
    destruct vs as [|v vs]; [by intros [? ?]|].
    intros _. by exists fields, (l :: ls), (v :: vs).
  - intros (fields & ls & vs & -> & Hls & Hvs & Hl & Hv).
    unfold Inline.chartBlock. simpl. rewrite Hls, Hvs. simpl.
    destruct ls; [done|]. destruct vs; [done|]. simpl. eauto.
Qed.

Lemma chartBlock_Some (o : option json) (b : Inline.Block) :
  Inline.chartBlock o = Some b →
  ∃ fields ls vs, o = Some (JsObject fields) ∧
    assoc "labels" fields = Some (JsArray ls) ∧
    assoc "values" fields = Some (JsArray vs) ∧ ls ≠ [] ∧ vs ≠ [] ∧
    Inline.block_charts b =
      ((if Inline.has_type (JsObject fields) "line"
       then [ Inline.LineChart (Inline.points "hora" ls vs) ] else []) ++
      (if Inline.has_type (JsObject fields) "bar"
       then [ Inline.BarChart (Inline.points "categoria" ls vs) ] else []) ++
      (if Inline.has_type (JsObject fields) "pie"
       then [ Inline.PieChart (Inline.points "categoria" ls vs)
                (imap (λ i _, Inline.cellFill (JsObject fields) i) ls) ]
       else []))%list.
Proof.
  intros Hb.
  destruct (proj1 (chartBlock_shown_iff o)) as
    (fields & ls & vs & -> & Hls & Hvs & Hl & Hv); [by rewrite Hb|].
  exists fields, ls, vs. do 5 (split; [done|]).
  unfold Inline.chartBlock in Hb. simpl in Hb. rewrite Hls, Hvs in Hb.
  simpl in Hb. destruct ls; [done|]. destruct vs; [done|]. simpl in Hb.
  by injection Hb as <-.
Qed.

Lemma has_type_unique (v : json) (ty ty' : string) :
  Inline.has_type v ty = true → Inline.has_type v ty' = true → ty = ty'.
Proof.
  unfold Inline.has_type.
  destruct (js_prop_opt (Some v) "type") as [[| | |s| |]|]; try done.
  intros H1 H2. apply bool_decide_eq_true in H1, H2. congruence.
Qed.

(** X15. The block under a message holds at most one chart: one when the
    payload's type is exactly line, bar or pie, and none otherwise, in
    which case only the caption is left (no placeholder is shown for the
    other types). *)
Theorem inline_block_one_chart (o : option json) (b : Inline.Block) :
  Inline.chartBlock o = Some b →
  length (Inline.block_charts b) ≤ 1 ∧
  (length (Inline.block_charts b) = 1 ↔
   ∃ v ty, o = Some v ∧ ty ∈ ["line"; "bar"; "pie"] ∧
           Inline.has_type v ty = true).
Proof.
  intros Hb.
  destruct (chartBlock_Some o b Hb)
    as (fields & ls & vs & -> & _ & _ & _ & _ & ->).
  set (v := JsObject fields).
  destruct (Inline.has_type v "line") eqn:Hline;
    destruct (Inline.has_type v "bar") eqn:Hbar;
    destruct (Inline.has_type v "pie") eqn:Hpie;
    try (by pose proof (has_type_unique v _ _ Hline Hbar));
    try (by pose proof (has_type_unique v _ _ Hline Hpie));
    try (by pose proof (has_type_unique v _ _ Hbar Hpie));
    simpl; (split; [lia|]).
  - split; [|done]. intros _. exists v, "line".
    rewrite !elem_of_cons. repeat split; auto.
  - split; [|done]. intros _. exists v, "bar".
    rewrite !elem_of_cons. repeat split; auto.
  - split; [|done]. intros _. exists v, "pie".
    rewrite !elem_of_cons. repeat split; auto.
  - split; [done|]. intros (v' & ty & [= <-] & Hty & Htrue).
    rewrite !elem_of_cons, elem_of_nil in Hty.
    destruct Hty as [-> | [-> | [-> | []]]]; congruence.
Qed.

Lemma inline_block_one_chart_witness :
  Inline.chartBlock (js_prop_opt (Some reply_with_chart) "visualization")
  = Some block_with_pie ∧
  length (Inline.block_charts block_with_pie) ≤ 1 ∧
  (length (Inline.block_charts block_with_pie) = 1 ↔
   ∃ v ty, js_prop_opt (Some reply_with_chart) "visualization" = Some v ∧
           ty ∈ ["line"; "bar"; "pie"] ∧ Inline.has_type v ty = true).
Proof.
  split; [reflexivity|].
  exact (inline_block_one_chart
           (js_prop_opt (Some reply_with_chart) "visualization")
           block_with_pie eq_refl).
Defined.

(** ** The points and the slices *)




(** ** Sending a question *)

Lemma formatted_Normal (data : json) :
  data ≠ JsNull → ∃ c, Inline.formatted data = Normal c.
Proof.
  intros Hnull. destruct data as [| | | |items|fields]; try done;
    try (by eexists).
  unfold Inline.formatted. simpl.
  unfold mbind, completion_bind.
  destruct (assoc "answer" fields) as [a|]; [destruct (json_truthy a)|];
    try (by eexists);
    (destruct (assoc "text" fields) as [t|]; [destruct (json_truthy t)|]);
    by eexists.
Qed.

Lemma js_or_null_Some (a : option json) :
  ∃ j, js_or a (Some JsNull) = Some j ∧
       (j = JsNull ∨ (a = Some j ∧ json_truthy j = true)).
Proof.
  unfold js_or. destruct a as [j|]; simpl.
  - destruct (json_truthy j) eqn:Hj; eauto.
  - eauto.
Qed.

(** X17. A send that passes the guard posts the trimmed input, and once
    the request settles, whatever the backend did, the list has grown by
    exactly the user's message (with that same trimmed text) followed by
    one assistant message, and the loading flag is down again.  In between
    the flag is up, so no second send gets through, whatever is typed. *)
Theorem inline_exchange (trim : string → string)
    (st st1 : Inline.State) (body typed : string)
    (now stamp now' stamp' : nat) (r : Inline.fetch_result) :
  Inline.handleSend_begin trim now stamp st = Some (st1, body) →
  body = trim (Inline.input st) ∧
  (∀ t s, Inline.handleSend_begin trim t s (Inline.setInput typed st1)
          = None) ∧
  (∃ user,
     Inline.messages
       (Inline.handleSend_end now' stamp' r (Inline.setInput typed st1))
     = (Inline.messages st ++ [user; Inline.reply now' stamp' r])%list ∧
     Inline.m_type user = "user" ∧
     Inline.m_content user = Literal body) ∧
  Inline.m_type (Inline.reply now' stamp' r) = "assistant" ∧
  Inline.isLoading
    (Inline.handleSend_end now' stamp' r (Inline.setInput typed st1))
  = false.
Proof.
  unfold Inline.handleSend_begin.
  destruct (negb (truthy (trim (Inline.input st))) || Inline.isLoading st);
    [done|].
  intros [= <- <-]. split; [done|]. split.
  { intros t s. unfold Inline.handleSend_begin. simpl.
    by rewrite orb_true_r. }
  split.
  { eexists. simpl. rewrite <- (assoc_L (++)). simpl. done. }
  split; [|done].
  destruct r as [|data]; [done|]. simpl.
  by destruct (Inline.formatted data).
Qed.

Lemma inline_exchange_witness :
  Inline.handleSend_begin trim_ascii 5 6 inline_typing
  = Some ({| Inline.messages :=
               [ {| Inline.m_id := "5"; Inline.m_type := "user";
                    Inline.m_content := Literal "oi";
                    Inline.m_visualization := None;
                    Inline.m_timestamp := 6 |} ];
             Inline.input := ""; Inline.isLoading := true |}, "oi") ∧
  "oi" = trim_ascii (Inline.input inline_typing) ∧
  Inline.isLoading
    (Inline.handleSend_end 7 8 Inline.FetchFailed
       (Inline.setInput "x"
          {| Inline.messages :=
               [ {| Inline.m_id := "5"; Inline.m_type := "user";
                    Inline.m_content := Literal "oi";
                    Inline.m_visualization := None;
                    Inline.m_timestamp := 6 |} ];
             Inline.input := ""; Inline.isLoading := true |}))
  = false.
Proof.
  destruct (inline_exchange trim_ascii inline_typing _ "oi" "x" 5 6 7 8
              Inline.FetchFailed eq_refl) as (Hbody & _ & _ & _ & Hload).
  split; [reflexivity|]. split; [exact Hbody | exact Hload].
Defined.

(** X18. The assistant message is the error message exactly when the
    request failed or the backend answered with a JSON [null] (which makes
    the read of [data.answer] throw inside the [try]). *)
Theorem inline_reply_error_iff (now stamp : nat) (r : Inline.fetch_result) :
  Inline.reply now stamp r = Inline.errorMessage now stamp ↔
  r = Inline.FetchFailed ∨ r = Inline.FetchJson JsNull.
Proof.
  split.
  - destruct r as [|data]; [by left|]. intros Hreply. right.
    assert (Hcases : data = JsNull ∨ data ≠ JsNull)
      by (destruct data; (by left) || (by right)).
    destruct Hcases as [-> | Hdata]; [done|]. exfalso.
    destruct (formatted_Normal data Hdata) as [c Hc].
    assert (Hvis : Inline.m_visualization
                     (Inline.reply now stamp (Inline.FetchJson data))
                   = js_or (js_prop_opt (Some data) "visualization")
                       (Some JsNull))
      by (unfold Inline.reply; by rewrite Hc).
    rewrite Hreply in Hvis.
    destruct (js_or_null_Some (js_prop_opt (Some data) "visualization"))
      as (j & Hj & _).
    rewrite Hj in Hvis. discriminate.
  - intros [-> | ->]; done.
Qed.

(** X19. A reply gets a chart block exactly when the backend's answer is
    an object whose [visualization] is itself an object with [labels] and
    [values] that are non-empty arrays; any other answer, string or
    malformed, only shows its text. *)
Theorem inline_reply_chart_iff (now stamp : nat) (r : Inline.fetch_result) :
  is_Some (Inline.chartBlock
             (Inline.m_visualization (Inline.reply now stamp r))) ↔
  ∃ fields vfields ls vs,
    r = Inline.FetchJson (JsObject fields) ∧
    assoc "visualization" fields = Some (JsObject vfields) ∧
    assoc "labels" vfields = Some (JsArray ls) ∧
    assoc "values" vfields = Some (JsArray vs) ∧ ls ≠ [] ∧ vs ≠ [].
Proof.
  rewrite chartBlock_shown_iff. split.
  - intros (vfields & ls & vs & Hvis & Hls & Hvs & Hl & Hv).
    destruct r as [|data]; [done|].
    unfold Inline.reply in Hvis.
    destruct (Inline.formatted data) as [c|e]; [|done].
    cbn [Inline.m_visualization] in Hvis.
    destruct (js_or_null_Some (js_prop_opt (Some data) "visualization"))
      as (j & Hj & [-> | [Hprop _]]); rewrite Hj in Hvis; [done|].
    injection Hvis as ->.
    destruct data as [| | | |items|fields]; try done.
    exists fields, vfields, ls, vs. by repeat split.
  - intros (fields & vfields & ls & vs & -> & Hvis & Hls & Hvs & Hl & Hv).
    exists vfields, ls, vs. repeat split; try done.
    destruct (formatted_Normal (JsObject fields)) as [c Hc]; [done|].
    unfold Inline.reply. rewrite Hc. simpl. rewrite Hvis. done.
Qed.

(** * The chat that renders through ChatMessage *)

(** ** What one exchange appends *)

Lemma assistant_text_only (t : Workflow.reading) (k : nat) (c : text)
    (d : option json) :
  msg_type (Workflow.assistant t k c d) = "assistant" ∧
  text_only (Workflow.assistant t k c d).
Proof. done. Qed.

Lemma js_prop_not_null (j : json) (k : string) :
  j ≠ JsNull → js_prop j k = Normal (js_prop_opt (Some j) k).
Proof. by destruct j. Qed.


(** The three ways [callSubWorkflow] can go: the answer is [null] and the
    updater throws at the next render; the request fails, which
    [handleSend] catches; or one message is added. *)
Lemma callSubWorkflow_cases (t : Workflow.reading)
    (sub : Workflow.fetch_result) (msgs : list Message) :
  (sub = Workflow.FetchJson JsNull ∧
   Workflow.callSubWorkflow t sub msgs = Throw TypeError) ∨
  (sub ≠ Workflow.FetchJson JsNull ∧
   ((Workflow.callSubWorkflow t sub msgs = Normal (msgs, Workflow.Failed)) ∨
    (∃ m, Workflow.callSubWorkflow t sub msgs
          = Normal ((msgs ++ [m])%list, Workflow.Done) ∧
          msg_type m = "assistant" ∧ text_only m))).
Proof.
  destruct sub as [|data]; [right; split; [done | by left]|].
  assert (Hnull : data = JsNull ∨ data ≠ JsNull)
    by (destruct data; (by left) || (by right)).
  destruct Hnull as [-> | Hnull]; [by left|].
  right. split; [congruence|]. right.
  unfold Workflow.callSubWorkflow.
  rewrite (js_prop_not_null data "tables" Hnull).
  eexists. split; [reflexivity|]. apply assistant_text_only.
Qed.

(** The replies an exchange adds after the user's message, or the
    failure to render. *)
Lemma handleSend_end_cases (t_main t_sub t_err : Workflow.reading)
    (main sub : Workflow.fetch_result) (st : Workflow.State) :
  (Workflow.callsSub main = true ∧ sub = Workflow.FetchJson JsNull ∧
   Workflow.handleSend_end t_main t_sub t_err main sub st = Throw TypeError) ∨
  (¬ (Workflow.callsSub main = true ∧ sub = Workflow.FetchJson JsNull) ∧
   ∃ replies,
     Workflow.handleSend_end t_main t_sub t_err main sub st
     = Normal {| Workflow.messages := (Workflow.messages st ++ replies)%list;
                 Workflow.input := Workflow.input st;
                 Workflow.isLoading := false |} ∧
     length replies = (if Workflow.callsSub main then 2 else 1) ∧
     Forall (λ m, msg_type m = "assistant" ∧ text_only m) replies).
Proof.
  set (err := Workflow.assistant t_err 2
                (Literal "Erro ao consultar o n8n Cloud. Tente novamente.")
                None).
  assert (Hone : ∀ m, msg_type m = "assistant" ∧ text_only m →
            Forall (λ m, msg_type m = "assistant" ∧ text_only m) [m]).
  { intros m Hm. apply Forall_cons. split; [done | apply Forall_nil_2]. }
  assert (Htwo : ∀ m m', msg_type m = "assistant" ∧ text_only m →
            msg_type m' = "assistant" ∧ text_only m' →
            Forall (λ m, msg_type m = "assistant" ∧ text_only m) [m; m']).
  { intros m m' Hm Hm'. apply Forall_cons. split; [done | by apply Hone]. }
  unfold Workflow.handleSend_end.
  destruct main as [|response].
  { right. split; [by intros [? _]|]. exists [err].
    split; [done|]. split; [done|]. apply Hone, assistant_text_only. }
  assert (Hnull : response = JsNull ∨ response ≠ JsNull)
    by (destruct response; (by left) || (by right)).
  destruct Hnull as [-> | Hnull].
  { right. split; [by intros [? _]|]. exists [err].
    split; [done|]. split; [done|]. apply Hone, assistant_text_only. }
  unfold Workflow.handleMainResponse, Workflow.callsSub.
  rewrite (js_prop_not_null response "tables" Hnull). cbv zeta.
  destruct (opt_truthy (js_prop_opt (Some response) "tables")) eqn:Htab.
  { right. split; [by intros [? _]|]. eexists [_].
    split; [done|]. split; [done|]. apply Hone, assistant_text_only. }
  destruct (opt_truthy (js_prop_opt (Some response) "columns")) eqn:Hcol.
  { right. split; [by intros [? _]|]. eexists [_].
    split; [done|]. split; [done|]. apply Hone, assistant_text_only. }
  cbn [orb negb andb].
  destruct (js_prop_opt (Some response) "text") as [txt|] eqn:Htxt.
  2:{ right. split; [by intros [? _]|]. eexists [_].
      split; [done|]. split; [done|]. apply Hone, assistant_text_only. }
  cbn [opt_truthy].
  destruct (json_truthy txt) eqn:Htruthy.
  2:{ right. split; [by intros [? _]|]. eexists [_].
      split; [done|]. split; [done|]. apply Hone, assistant_text_only. }
  destruct (opt_truthy (js_prop_opt (Some response) "needTableSelection"))
    eqn:Hneed.
  2:{ right. split; [by intros [? _]|]. eexists [_].
      split; [done|]. split; [done|]. apply Hone, assistant_text_only. }
  cbn [andb].
  destruct (callSubWorkflow_cases t_sub sub
              (Workflow.messages st
               ++ [Workflow.assistant t_main 0 (Raw txt) None])%list)
    as [[-> Hsub] | [Hsub [Hfailed | (m & Hdone & Hm)]]].
  - left. by rewrite Hsub.
  - right. split; [by intros [_ ?]|]. rewrite Hfailed.
    exists [Workflow.assistant t_main 0 (Raw txt) None; err].
    split; [|split; [done | apply Htwo; apply assistant_text_only]].
    unfold mbind, completion_bind, mret, completion_ret.
    cbn [Workflow.messages]. by rewrite <- !(assoc_L (++)).
  - right. split; [by intros [_ ?]|]. rewrite Hdone.
    exists [Workflow.assistant t_main 0 (Raw txt) None; m].
    split; [|split; [done | apply Htwo; [apply assistant_text_only | done]]].
    unfold mbind, completion_bind, mret, completion_ret.
    cbn [Workflow.messages]. by rewrite <- !(assoc_L (++)).
Qed.

Lemma handleSend_begin_Some (trim : string → string)
    (t : Workflow.reading) (st st1 : Workflow.State) (req : Workflow.Request) :
  Workflow.handleSend_begin trim t st = Some (st1, req) →
  req = {| Workflow.chatInput := Workflow.input st;
           Workflow.sessionId := "sessao-3" |} ∧
  Workflow.isLoading st1 = true ∧ Workflow.input st1 = "" ∧
  ∃ user, Workflow.messages st1 = (Workflow.messages st ++ [user])%list ∧
          msg_type user = "user" ∧
          content user = Literal (Workflow.input st) ∧
          text_only user.
Proof.
  unfold Workflow.handleSend_begin.
  destruct (negb (truthy (trim (Workflow.input st))) || Workflow.isLoading st);
    [done|].
  intros [= <- <-]. do 3 (split; [done|]).
  eexists. split; [reflexivity|]. done.
Qed.

(** X20. A send that passes the guard posts the input as typed, with the
    fixed session id.  What follows has two outcomes.  When the main
    response asks for a table selection and the sub-workflow answers
    [null], the updater that builds the last message throws a [TypeError]
    as React renders, outside the [try]: no error message is added and
    the chat fails to render.  In every other case, however the requests
    went, the list has grown by the user's message followed by one or two
    assistant messages, none of which carries a chart, SQL, tables or
    columns, and the loading flag is down again.  This is about the state
    alone: the text of a reply is stored as it came, and whether
    [ChatMessage] can draw it is a separate matter. *)
Theorem workflow_exchange (trim : string → string)
    (st st1 : Workflow.State) (req : Workflow.Request)
    (t t_main t_sub t_err : Workflow.reading)
    (main sub : Workflow.fetch_result) :
  Workflow.handleSend_begin trim t st = Some (st1, req) →
  Workflow.chatInput req = Workflow.input st ∧
  Workflow.sessionId req = "sessao-3" ∧
  Workflow.isLoading st1 = true ∧
  ((Workflow.callsSub main = true ∧ sub = Workflow.FetchJson JsNull ∧
    Workflow.handleSend_end t_main t_sub t_err main sub st1
    = Throw TypeError) ∨
   (¬ (Workflow.callsSub main = true ∧ sub = Workflow.FetchJson JsNull) ∧
    ∃ st2 user replies,
      Workflow.handleSend_end t_main t_sub t_err main sub st1 = Normal st2 ∧
      Workflow.isLoading st2 = false ∧
      Workflow.messages st2
      = (Workflow.messages st ++ user :: replies)%list ∧
      msg_type user = "user" ∧
      content user = Literal (Workflow.input st) ∧
      1 ≤ length replies ≤ 2 ∧
      Forall (λ m, msg_type m = "assistant" ∧ text_only m) replies)).
Proof.
  intros Hbegin.
  apply handleSend_begin_Some in Hbegin
    as (-> & Hload & _ & user & Hmsgs & Huser & Hcontent & _).
  do 3 (split; [done|]).
  destruct (handleSend_end_cases t_main t_sub t_err main sub st1)
    as [(Hcalls & Hsub & Hthrow) | (Hnot & replies & Hend & Hlen & Hall)];
    [by left|].
  right. split; [done|].
  eexists _, user, replies. split; [exact Hend|].
  cbn [Workflow.isLoading Workflow.messages].
  split; [done|]. rewrite Hmsgs, <- (assoc_L (++)).
  split; [done|]. split; [done|]. split; [done|].
  split; [|done]. destruct (Workflow.callsSub main); lia.
Qed.

Lemma workflow_exchange_witness :
  Workflow.handleSend_begin trim_ascii
    {| Workflow.now := 5; Workflow.stamp := 6 |} workflow_typing
  = Some ({| Workflow.messages :=
               [ {| msg_id := "5"; msg_type := "user";
                    content := Literal " oi "; timestamp := 6;
                    visualization := None; tables := None; columns := None;
                    sql_query := None; msg_data := None |} ];
             Workflow.input := ""; Workflow.isLoading := true |},
          {| Workflow.chatInput := " oi ";
             Workflow.sessionId := "sessao-3" |}) ∧
  Workflow.handleSend_end
    {| Workflow.now := 7; Workflow.stamp := 7 |}
    {| Workflow.now := 8; Workflow.stamp := 8 |}
    {| Workflow.now := 9; Workflow.stamp := 9 |}
    (Workflow.FetchJson reply_needs_table) Workflow.FetchFailed
    {| Workflow.messages :=
         [ {| msg_id := "5"; msg_type := "user";
              content := Literal " oi "; timestamp := 6;
              visualization := None; tables := None; columns := None;
              sql_query := None; msg_data := None |} ];
       Workflow.input := ""; Workflow.isLoading := true |}
  = Normal
      {| Workflow.messages :=
           [ {| msg_id := "5"; msg_type := "user";
                content := Literal " oi "; timestamp := 6;
                visualization := None; tables := None; columns := None;
                sql_query := None; msg_data := None |};
             {| msg_id := "7"; msg_type := "assistant";
                content := Raw (JsString "qual tabela?"); timestamp := 7;
                visualization := None; tables := None; columns := None;
                sql_query := None; msg_data := None |};
             {| msg_id := "11"; msg_type := "assistant";
                content :=
                  Literal "Erro ao consultar o n8n Cloud. Tente novamente.";
                timestamp := 9;
                visualization := None; tables := None; columns := None;
                sql_query := None; msg_data := None |} ];
         Workflow.input := ""; Workflow.isLoading := false |} ∧
  Workflow.handleSend_end
    {| Workflow.now := 7; Workflow.stamp := 7 |}
    {| Workflow.now := 8; Workflow.stamp := 8 |}
    {| Workflow.now := 9; Workflow.stamp := 9 |}
    (Workflow.FetchJson reply_needs_table) (Workflow.FetchJson JsNull)
    {| Workflow.messages :=
         [ {| msg_id := "5"; msg_type := "user";
              content := Literal " oi "; timestamp := 6;
              visualization := None; tables := None; columns := None;
              sql_query := None; msg_data := None |} ];
       Workflow.input := ""; Workflow.isLoading := true |}
  = Throw TypeError.
Proof.
  split; [reflexivity|]. split; [reflexivity|].
  destruct (workflow_exchange trim_ascii workflow_typing _ _
              {| Workflow.now := 5; Workflow.stamp := 6 |}
              {| Workflow.now := 7; Workflow.stamp := 7 |}
              {| Workflow.now := 8; Workflow.stamp := 8 |}
              {| Workflow.now := 9; Workflow.stamp := 9 |}
              (Workflow.FetchJson reply_needs_table)
              (Workflow.FetchJson JsNull)
              eq_refl) as (_ & _ & _ & [(_ & _ & Hthrow) | (Hnot & _)]).
  - exact Hthrow.
  - exfalso. apply Hnot. split; reflexivity.
Defined.

(** ** What ChatMessage makes of these messages *)

Lemma text_only_tabs (m : Message) :
  text_only m →
  tabsShown m = opt_truthy (msg_data m) ∧
  defaultTab m = "data" ∧
  tabValues m = if opt_truthy (msg_data m) then ["data"] else [].
Proof.
  intros (Hvis & Htab & Hcol & Hsql).
  unfold tabsShown, defaultTab, tabValues, has_sql.
  rewrite Htab, Hcol, Hsql. simpl. by destruct (opt_truthy (msg_data m)).
Qed.

Lemma text_only_card (m : Message) (card : TabsCard) :
  text_only m → tabsCard m = Normal card →
  tabs_default card = "data" ∧
  tabs_values card = (if opt_truthy (msg_data m) then ["data"] else []) ∧
  tabs_sql card = None ∧ tabs_tables card = None ∧
  tabs_columns card = None.
Proof.
  intros Honly Hcard.
  destruct (text_only_tabs m Honly) as (_ & Hdefault & Hvalues).
  destruct Honly as (Hvis & Htab & Hcol & Hsql).
  unfold tabsCard in Hcard.
  rewrite Hcol, Htab, Hdefault, Hvalues in Hcard. simpl in Hcard.
  unfold has_sql in Hcard. rewrite Hsql in Hcard.
  unfold mret, completion_ret, mbind, completion_bind in Hcard.
  destruct (match msg_data m with
            | Some d => _
            | None => _
            end) as [dat|e]; [|done].
  by injection Hcard as <-.
Qed.

Lemma text_only_view (mounted : string → bool) (m : Message)
    (view : MessageView) :
  text_only m → ChatMessage mounted m = Normal view →
  view_chart view = None ∧
  ∀ tabs, view_tabs view = Some tabs →
    tabs_default tabs = "data" ∧ tabs_values tabs = ["data"] ∧
    tabs_sql tabs = None ∧ tabs_tables tabs = None ∧
    tabs_columns tabs = None.
Proof.
  intros Honly Hview.
  destruct (text_only_tabs m Honly) as (Hshown & _ & _).
  assert (Hvis : visualization m = None) by apply Honly.
  unfold ChatMessage in Hview. rewrite Hvis, Hshown in Hview.
  unfold mret, completion_ret, mbind, completion_bind in Hview.
  destruct (child (content m)) as [txt|e] eqn:Htxt.
  2:{ by destruct (if opt_truthy (msg_data m) then _ else _). }
  destruct (opt_truthy (msg_data m)) eqn:Hdata.
  - destruct (tabsCard m) as [card|e] eqn:Hcard; [|done].
    destruct (text_only_card m card Honly Hcard)
      as (Hdefault & Hvalues & Hsql & Htables & Hcols).
    simpl in Hview. rewrite Hcols in Hview. simpl in Hview.
    destruct (mounted "columns"); simpl in Hview;
      injection Hview as <-; (split; [done|]);
      intros tabs [= <-]; by rewrite Hdata in Hvalues.
  - simpl in Hview. injection Hview as <-. simpl. split; [done|].
    by intros tabs [=].
Qed.

(** X21. The chat keeps every message free of chart, SQL, tables and
    columns: if the list is so before a send it is so in the state the
    exchange leads to, and for such a message ChatMessage never draws a
    chart and, when it shows the tabs at all, shows the data tab alone and
    opens it by default. *)
Theorem workflow_messages_text_only (trim : string → string)
    (st st1 st2 : Workflow.State) (req : Workflow.Request)
    (t t_main t_sub t_err : Workflow.reading)
    (main sub : Workflow.fetch_result) :
  Forall text_only (Workflow.messages st) →
  Workflow.handleSend_begin trim t st = Some (st1, req) →
  Workflow.handleSend_end t_main t_sub t_err main sub st1 = Normal st2 →
  Forall text_only (Workflow.messages st2) ∧
  ∀ mounted m view,
    m ∈ Workflow.messages st2 →
    ChatMessage mounted m = Normal view →
    view_chart view = None ∧
    ∀ tabs, view_tabs view = Some tabs →
      tabs_default tabs = "data" ∧ tabs_values tabs = ["data"].
Proof.
  intros Hinv Hbegin Hend.
  apply handleSend_begin_Some in Hbegin
    as (_ & _ & _ & user & Hmsgs & _ & _ & Huser).
  assert (Hafter : Forall text_only (Workflow.messages st2)).
  { destruct (handleSend_end_cases t_main t_sub t_err main sub st1)
      as [(_ & _ & Hthrow) | (_ & replies & Hend' & _ & Hall)];
      [congruence|].
    rewrite Hend in Hend'. injection Hend' as ->.
    cbn [Workflow.messages]. rewrite Hmsgs.
    apply Forall_app. split.
    - apply Forall_app. split; [done|].
      apply Forall_cons. split; [done | apply Forall_nil_2].
    - eapply Forall_impl; [exact Hall|]. by intros m [_ Hm]. }
  split; [exact Hafter|].
  intros mounted m view Hm Hview.
  rewrite Forall_forall in Hafter.
  destruct (text_only_view mounted m view (Hafter m Hm) Hview)
    as [Hchart Htabs].
  split; [done|]. intros tabs Ht.
  by destruct (Htabs tabs Ht) as (? & ? & _).
Qed.

Lemma workflow_messages_text_only_witness :
  Forall text_only (Workflow.messages workflow_typing) ∧
  ∃ st2,
    Workflow.handleSend_end
      {| Workflow.now := 7; Workflow.stamp := 7 |}
      {| Workflow.now := 8; Workflow.stamp := 8 |}
      {| Workflow.now := 9; Workflow.stamp := 9 |}
      (Workflow.FetchJson reply_needs_table) Workflow.FetchFailed
      {| Workflow.messages :=
           [ {| msg_id := "5"; msg_type := "user";
                content := Literal " oi "; timestamp := 6;
                visualization := None; tables := None; columns := None;
                sql_query := None; msg_data := None |} ];
         Workflow.input := ""; Workflow.isLoading := true |}
    = Normal st2 ∧
    length (Workflow.messages st2) = 3 ∧
    Forall text_only (Workflow.messages st2).
Proof.
  assert (Hinv : Forall text_only (Workflow.messages workflow_typing))
    by apply Forall_nil_2.
  split; [exact Hinv|].
  eexists. split; [reflexivity|]. split; [reflexivity|].
  exact (proj1 (workflow_messages_text_only trim_ascii workflow_typing _ _ _
                  {| Workflow.now := 5; Workflow.stamp := 6 |}
                  {| Workflow.now := 7; Workflow.stamp := 7 |}
                  {| Workflow.now := 8; Workflow.stamp := 8 |}
                  {| Workflow.now := 9; Workflow.stamp := 9 |}
                  (Workflow.FetchJson reply_needs_table) Workflow.FetchFailed
                  Hinv eq_refl eq_refl)).
Defined.

(** ** One reply or two *)


(** ** Synthesized names, on an example *)

Lemma seriesName_no_legendas_inj_witness :
  extra_get legendas bar_two_series = None ∧
  seriesName bar_two_series 1 = seriesName bar_two_series 1 ∧
  seriesName bar_two_series 0 ≠ seriesName bar_two_series 1.
Proof.
  split; [reflexivity|]. split; [reflexivity|].
  intros Heq.
  pose proof (seriesName_no_legendas_inj bar_two_series 0 1 eq_refl Heq).
  discriminate.
Defined.

(** A [null] among the columns, on an example: the message does not
    render. *)
Example ChatMessage_null_column :
  ∀ mounted, ChatMessage mounted message_null_column = Throw TypeError.
Proof. reflexivity. Qed.
